(** * create-pipeline-image.py: layout and discovery, verified

    A shallow embedding of [scripts/create-pipeline-image.py].  Python
    integers are [Z], strings are [string] (one [ascii] per code point,
    so the model covers names written in Latin-1), lists are [list].
    Calls into the imaging library are kept behind the [Imaging]
    interface; what the script draws is recorded as the sequence of
    drawing calls it makes. *)

From Stdlib Require Import ZArith List String Ascii Bool Lia Permutation Sorted.
Import ListNotations.
Local Open Scope Z_scope.

(** ** Python primitives used by the script *)

Module Py.

(** Exceptions the script can meet; none of them is caught by [main]. *)
Inductive exn : Type :=
| ValueError
| ZeroDivisionError
| IndexError
| OSError.

(** A computation that returns or raises. *)
Inductive result (A : Type) : Type :=
| Ok (a : A)
| Raise (e : exn).
Arguments Ok {A} a.
Arguments Raise {A} e.

Definition bind {A B : Type} (m : result A) (k : A -> result B) : result B :=
  match m with
  | Ok a => k a
  | Raise e => Raise e
  end.

(** The white space [int] drops around a literal: tab to carriage
    return and the space, and of the code points from 128 on those
    that are Unicode spaces, U+0085 and U+00A0 below 256. *)
Definition isspace (c : ascii) : bool :=
  let n := N_of_ascii c in
  ((9 <=? n) && (n <=? 13) || (n =? 32) || (n =? 133) || (n =? 160))%N.

(** Value of a decimal digit. *)
Definition digit (c : ascii) : option Z :=
  let n := N_of_ascii c in
  if ((48 <=? n) && (n <=? 57))%N then Some (Z.of_N n - 48) else None.

Fixpoint lstrip (s : string) : string :=
  match s with
  | String c s' => if isspace c then lstrip s' else s
  | EmptyString => s
  end.

Fixpoint rev_append (s acc : string) : string :=
  match s with
  | EmptyString => acc
  | String c s' => rev_append s' (String c acc)
  end.

Definition rev (s : string) : string := rev_append s EmptyString.

Definition strip (s : string) : string := rev (lstrip (rev (lstrip s))).

(** The digit part of an integer literal: digits, with single
    underscores allowed between two digits. *)
Fixpoint digits (acc : Z) (after_digit : bool) (s : string) : option Z :=
  match s with
  | EmptyString => if after_digit then Some acc else None
  | String c s' =>
      if Ascii.eqb c "_"%char
      then (if after_digit then digits acc false s' else None)
      else match digit c with
           | Some d => digits (10 * acc + d) true s'
           | None => None
           end
  end.

(** [int(s)] for a string: surrounding white space is dropped, one
    sign is allowed, the rest is [digits]; [None] is [ValueError].
    (The interpreter's limit of 4300 digits is out of reach of a file
    name.) *)
Definition int (s : string) : option Z :=
  match strip s with
  | String "+" r => digits 0 false r
  | String "-" r => option_map Z.opp (digits 0 false r)
  | t => digits 0 false t
  end.

(** [s.replace(pat, "")] for a non-empty [pat]: every occurrence of
    [pat], found left to right without overlap, is dropped.  [skip]
    counts the characters of an occurrence still to be dropped. *)
Fixpoint remove_from (pat : string) (skip : nat) (s : string) : string :=
  match s with
  | EmptyString => EmptyString
  | String c s' =>
      match skip with
      | S k => remove_from pat k s'
      | O => if prefix pat s
             then remove_from pat (Nat.pred (String.length pat)) s'
             else String c (remove_from pat O s')
      end
  end.

Definition remove (pat s : string) : string := remove_from pat O s.

(** [str(n)] for an integer. *)
Fixpoint digits_of_pos (fuel : nat) (n : Z) (acc : string) : string :=
  match fuel with
  | O => acc
  | S f =>
      let acc' := String (ascii_of_N (Z.to_N (48 + n mod 10))) acc in
      if n <? 10 then acc' else digits_of_pos f (n / 10) acc'
  end.

Definition str (n : Z) : string :=
  if n <? 0
  then String "-" (digits_of_pos (S (Z.to_nat (Z.log2 (- n)))) (- n) EmptyString)
  else digits_of_pos (S (Z.to_nat (Z.log2 n))) n EmptyString.

(** [ord], and [chr] on the code points below 256: a negative
    argument is a [ValueError]; the script never asks for a code point
    from 256 on, which this model of strings cannot hold. *)
Definition ord (c : ascii) : Z := Z.of_N (N_of_ascii c).

Definition chr (n : Z) : result ascii :=
  if (0 <=? n) && (n <? 256) then Ok (ascii_of_N (Z.to_N n)) else Raise ValueError.

(** [a < b] on [(int, str)] tuples: first components first, then the
    strings by code point. *)
Definition tuple_lt (a b : Z * string) : bool :=
  (fst a <? fst b) || ((fst a =? fst b) && String.ltb (snd a) (snd b)).

(** [list.sort(key=...)]: the stable sort, ascending by key.  An
    element goes in front of the first element whose key is not
    smaller than its own, so equal keys keep their order. *)
Section Sort.
Context {A : Type} (key : A -> Z * string).

Fixpoint insert (x : A) (l : list A) : list A :=
  match l with
  | [] => [x]
  | y :: l' => if tuple_lt (key y) (key x) then y :: insert x l' else x :: y :: l'
  end.

Definition sort (l : list A) : list A := fold_right insert [] l.
End Sort.

End Py.


Notation "x <- m ;; k" := (Py.bind m (fun x => k))
  (at level 61, m at next level, right associativity).

(** ** Layout constants *)

Definition PIPELINE_HEIGHT : Z := 340.
Definition ARROW_WIDTH : Z := 10.
Definition PADDING : Z := 12.
Definition ROW_GAP : Z := 20.
Definition LETTER_WIDTH : Z := 18.

(** ** The imaging library

    What the script asks of Pillow beyond sizes: pixel data and the
    operations on it, and the measure of a label in the loaded font. *)

Class Imaging : Type := {
  raster : Type;
  (** [ImageEnhance.Sharpness(img).enhance(1.15)] *)
  sharpen : raster -> raster;
  (** the pixels of [img.resize((w, h), Image.Resampling.LANCZOS)] *)
  lanczos : Z -> Z -> raster -> raster;
  (** [draw.textbbox((0, 0), text, font=font)] *)
  textbbox : string -> Z * Z * Z * Z
}.

Inductive mode : Type := RGBA | RGB.

Definition mode_eqb (a b : mode) : bool :=
  match a, b with
  | RGBA, RGBA | RGB, RGB => true
  | _, _ => false
  end.

Section Script.
Context {lib : Imaging}.

Record Image : Type := {
  width : Z;
  height : Z;
  img_mode : mode;
  pixels : raster
}.

(** A file the glob returns: its stem, and what
    [Image.open(path).convert("RGBA")] gives for it, [None] when the
    file cannot be decoded. *)
Record source_file : Type := {
  stem : string;
  decoded : option (Z * Z * raster)
}.

(** The file system as the script sees it: whether [ASSETS_BASE]
    exists and the files matching [IMAGE_GLOB], in the order the
    directory scan yields them. *)
Record world : Type := {
  assets_exists : bool;
  globbed : list source_file
}.

(** *** discover_images *)

Definition sort_key (stem : string) : Z * string :=
  if String.eqb stem "GA_image" then (0, stem)
  else
    let suffix := Py.remove "GA_image" stem in
    match (if String.eqb suffix EmptyString then Some 0 else Py.int suffix) with
    | Some n => (n, stem)
    | None => (999, stem)
    end.

Definition discover_images (paths : list source_file) : list source_file :=
  Py.sort (fun p => sort_key (stem p)) paths.

(** *** load_and_prepare, resize_to_height *)

Definition load_and_prepare (p : source_file) : Py.result Image :=
  match decoded p with
  | None => Py.Raise Py.OSError
  | Some (w, h, px) =>
      Py.Ok {| width := w; height := h; img_mode := RGBA; pixels := sharpen px |}
  end.

(** [Image.resize]: Pillow refuses a size below 1 in either
    direction ("height and width must be > 0"). *)
Definition resize (img : Image) (w h : Z) : Py.result Image :=
  if (w <? 1) || (h <? 1) then Py.Raise Py.ValueError
  else Py.Ok {| width := w; height := h; img_mode := img_mode img;
                pixels := lanczos w h (pixels img) |}.

(** [int(w * target_h / h)]: the true division is correctly rounded,
    and truncating it gives the truncated exact quotient as long as
    [w * target_h + h] stays below 2^53, far above any image size. *)
Definition resize_to_height (img : Image) (target_h : Z) : Py.result Image :=
  let w := width img in
  let h := height img in
  if h =? target_h then Py.Ok img
  else if h =? 0 then Py.Raise Py.ZeroDivisionError
  else
    let new_w := Z.quot (w * target_h) h in
    resize img new_w target_h.

(** *** The canvas

    The canvas is the blank image [Image.new] makes, followed by the
    drawing calls made on it, oldest first. *)

Inductive rgb_panel : Type :=
| AlphaOnWhite (panel : Image)   (* pasted on white through its alpha band *)
| ConvertRGB (panel : Image).    (* panel.convert("RGB") *)

Inductive draw_call : Type :=
| Text (tx ty : Z) (text : string)          (* draw.text((tx, ty), text, ...) *)
| Paste (panel_rgb : rgb_panel) (x y : Z)   (* canvas.paste(panel_rgb, (x, y)) *)
| Arrow (x1 y1 x2 y2 : Z).                  (* draw_arrow(draw, x1, y1, x2, y2, ...) *)

Record canvas : Type := {
  canvas_width : Z;
  canvas_height : Z;
  calls : list draw_call
}.

Definition draw_on (cv : canvas) (c : draw_call) : canvas :=
  {| canvas_width := canvas_width cv; canvas_height := canvas_height cv;
     calls := calls cv ++ [c] |}.

Definition section_text (step : Z) : Py.result string :=
  if step <=? 26
  then c <- Py.chr (Py.ord "A" + step - 1) ;; Py.Ok (String c EmptyString)
  else Py.Ok (Py.str step).

Definition draw_section_letter (cv : canvas) (x y panel_h step : Z) : Py.result canvas :=
  text <- section_text step ;;
  let '(b0, b1, b2, b3) := textbbox text in
  let tw := b2 - b0 in
  let th := b3 - b1 in
  let center_y := y + panel_h / 2 in
  let tx := x + (LETTER_WIDTH - tw) / 2 in
  let ty := center_y - th / 2 in
  Py.Ok (draw_on cv (Text tx ty text)).

Definition paste_panel (cv : canvas) (panel : Image) (x y : Z) : canvas :=
  let panel_rgb :=
    if mode_eqb (img_mode panel) RGBA then AlphaOnWhite panel else ConvertRGB panel in
  draw_on cv (Paste panel_rgb x y).

(** An arrow is kept as the call that draws it: the line and the head
    come out of floating-point trigonometry on the two end points. *)
Definition draw_arrow (cv : canvas) (x1 y1 x2 y2 : Z) : canvas :=
  draw_on cv (Arrow x1 y1 x2 y2).

(** *** main

    [prepare_panels] is the loop of lines 115-119; [compose] is lines
    121-170, from the split into rows to the last drawing call. *)

Fixpoint prepare_panels (image_paths : list source_file) (panels : list Image)
  : Py.result (list Image) :=
  match image_paths with
  | [] => Py.Ok panels
  | path :: rest =>
      img <- load_and_prepare path ;;
      img <- resize_to_height img PIPELINE_HEIGHT ;;
      prepare_panels rest (panels ++ [img])
  end.

Definition len {A : Type} (l : list A) : Z := Z.of_nat (List.length l).

Definition row_width (p_list : list Image) : Z :=
  fold_right Z.add 0 (map (fun p => LETTER_WIDTH + width p) p_list)
  + ARROW_WIDTH * Z.max 0 (len p_list - 1).

(** The body of the [for i, panel in enumerate(panels_list)] loop,
    with the cursor [x], [last_cx] and the canvas as loop state;
    [n] is [len(panels_list)]. *)
Fixpoint draw_row_loop (n start_y center_y step_start : Z)
  (i : Z) (rest : list Image) (x last_cx : Z) (cv : canvas)
  : Py.result (Z * Z * canvas) :=
  match rest with
  | [] => Py.Ok (x, last_cx, cv)
  | panel :: rest' =>
      cv <- draw_section_letter cv x start_y PIPELINE_HEIGHT (step_start + i) ;;
      let cv := paste_panel cv panel (x + LETTER_WIDTH) start_y in
      let last_cx := x + LETTER_WIDTH + width panel / 2 in
      let x := x + (LETTER_WIDTH + width panel) in
      if i <? n - 1
      then
        let cv := draw_arrow cv x center_y (x + ARROW_WIDTH) center_y in
        let x := x + ARROW_WIDTH in
        draw_row_loop n start_y center_y step_start (i + 1) rest' x last_cx cv
      else draw_row_loop n start_y center_y step_start (i + 1) rest' x last_cx cv
  end.

(** Returns [(first_cx, last_cx)] and the canvas drawn on. *)
Definition draw_row (cv : canvas) (panels_list : list Image)
  (start_y step_start start_x : Z) : Py.result (Z * Z * canvas) :=
  let x := start_x in
  let center_y := start_y + PIPELINE_HEIGHT / 2 in
  match panels_list with
  | [] => Py.Raise Py.IndexError
  | p0 :: _ =>
      let first_cx := x + LETTER_WIDTH + width p0 / 2 in
      r <- draw_row_loop (len panels_list) start_y center_y step_start
             0 panels_list x first_cx cv ;;
      let '(_, last_cx, cv) := r in
      Py.Ok (first_cx, last_cx, cv)
  end.

Definition is_empty {A : Type} (l : list A) : bool :=
  match l with [] => true | _ => false end.

Definition row1_of (panels : list Image) : list Image :=
  firstn (Z.to_nat (Z.min 3 (len panels))) panels.

Definition row2_of (panels : list Image) : list Image :=
  skipn (List.length (row1_of panels)) panels.

Definition row2_start_x (w1 w2 : Z) : Z := PADDING + Z.max 0 ((w1 - w2) / 2).

Definition compose (panels : list Image) : Py.result canvas :=
  let row1 := row1_of panels in
  let row2 := row2_of panels in
  let w1 := row_width row1 in
  let w2 := if is_empty row2 then 0 else row_width row2 in
  let total_width := Z.max w1 w2 + PADDING * 2 in
  let total_height :=
    if is_empty row2 then PIPELINE_HEIGHT + PADDING * 2
    else PIPELINE_HEIGHT * 2 + ROW_GAP + PADDING * 2 in
  let cv := {| canvas_width := total_width; canvas_height := total_height;
               calls := [] |} in
  let y1 := PADDING in
  r <- draw_row cv row1 y1 1 PADDING ;;
  let cv := snd r in
  if is_empty row2 then Py.Ok cv
  else
    let y2 := PADDING + PIPELINE_HEIGHT + ROW_GAP in
    let w2 := row_width row2 in
    r <- draw_row cv row2 y2 (len row1 + 1) (row2_start_x w1 w2) ;;
    Py.Ok (snd r).

(** What [final.save(OUTPUT_PATH, "PNG", ...)] writes: the canvas
    resampled to [out_size]. *)
Record png_file : Type := {
  png_width : Z;
  png_height : Z;
  png_of : canvas
}.

Definition upscale (cv : canvas) (scale : Z) : png_file :=
  {| png_width := canvas_width cv * scale; png_height := canvas_height cv * scale;
     png_of := cv |}.

Inductive message : Type :=
| AssetsDirectoryNotFound
| NoImagesFound
| PipelineImageSaved.

(** One run of [main]: what it returns or raises, what it prints and
    what it saves at [OUTPUT_PATH]. *)
Record run : Type := {
  returned : Py.result Z;
  console : list message;
  saved : list png_file
}.

Definition main (w : world) : run :=
  if negb (assets_exists w)
  then {| returned := Py.Ok 1; console := [AssetsDirectoryNotFound]; saved := [] |}
  else
    let image_paths := discover_images (globbed w) in
    if is_empty image_paths
    then {| returned := Py.Ok 1; console := [NoImagesFound]; saved := [] |}
    else
      match (panels <- prepare_panels image_paths [] ;; compose panels) with
      | Py.Raise e => {| returned := Py.Raise e; console := []; saved := [] |}
      | Py.Ok cv =>
          {| returned := Py.Ok 0; console := [PipelineImageSaved];
             saved := [upscale cv 2] |}
      end.

(** [exit(main())]: the status is what [main] returns; an exception
    that leaves [main] ends the interpreter with status 1. *)
Definition exit_status (r : run) : Z :=
  match returned r with
  | Py.Ok n => n
  | Py.Raise _ => 1
  end.

End Script.


(** ** A library to run the script on

    Pixel data kept as the expression that made it, and labels
    measured as 8 by 11 pixels a character. *)

Inductive sample_raster : Type :=
| FromFile (id : Z)
| Sharpened (r : sample_raster)
| Resampled (w h : Z) (r : sample_raster).

Definition sample_imaging : Imaging := {|
  raster := sample_raster;
  sharpen := Sharpened;
  lanczos := Resampled;
  textbbox := fun text => (0, 0, 8 * Z.of_nat (String.length text), 11)
|}.

Definition sample_image (id w h : Z) : @Image sample_imaging :=
  @Build_Image sample_imaging w h RGBA (Sharpened (FromFile id)).

Definition sample_file (name : string) (id w h : Z) : @source_file sample_imaging :=
  @Build_source_file sample_imaging name (Some (w, h, FromFile id)).

Definition corrupt_file (name : string) : @source_file sample_imaging :=
  @Build_source_file sample_imaging name None.

(** Panels already at the pipeline height, one per width given. *)
Definition sample_panels (widths : list Z) : list (@Image sample_imaging) :=
  map (fun w => sample_image w w PIPELINE_HEIGHT) widths.

(** ** Notions the properties are stated with *)

(** [r] is an integer nearest to the ratio [num / den]. *)
Definition is_nearest (num den r : Z) : Prop :=
  forall k : Z, Z.abs (r * den - num) <= Z.abs (k * den - num).

(** The order [list.sort] arranges the keys in: [b] is not smaller
    than [a]. *)
Definition tuple_le (a b : Z * string) : Prop := Py.tuple_lt b a = false.

Definition key_le {A : Type} (key : A -> Z * string) (x y : A) : Prop :=
  tuple_le (key x) (key y).

(** The letters a step can be labelled with. *)
Definition alphabet : string := "ABCDEFGHIJKLMNOPQRSTUVWXYZ".

(** The value of a string of decimal digits. *)
Fixpoint numeral_value (acc : Z) (s : string) : option Z :=
  match s with
  | EmptyString => Some acc
  | String c s' =>
      match Py.digit c with
      | Some d => numeral_value (10 * acc + d) s'
      | None => None
      end
  end.

(** [t] is the decimal numeral of [n]: digits only, the first of them
    not a zero, of value [n]. *)
Definition is_numeral_of (t : string) (n : Z) : Prop :=
  numeral_value 0 t = Some n
  /\ exists c t', t = String c t' /\ c <> "0"%char.

(** The row at [s2] of width [w2] is centered under the row at [s1] of
    width [w1]: what sticks out (or is left free) on the left and on the
    right differs by one pixel at most. *)
Definition centered_under (s1 w1 s2 w2 : Z) : Prop :=
  Z.abs ((s2 - s1) - ((s1 + w1) - (s2 + w2))) <= 1.

Section Expected.
Context {lib : Imaging}.

(** The width of a row as the layout rule gives it. *)
Definition spec_row_width (row : list Image) : Z :=
  fold_right Z.add 0 (map (fun p => LETTER_WIDTH + width p) row)
  + ARROW_WIDTH * (len row - 1).

(** A matching file that loads and resizes. *)
Definition preparable (f : source_file) : Prop :=
  exists img p,
    load_and_prepare f = Py.Ok img /\ resize_to_height img PIPELINE_HEIGHT = Py.Ok p.

(** The label of a step, empty where [section_text] raises. *)
Definition text_of (step : Z) : string :=
  match section_text step with
  | Py.Ok t => t
  | Py.Raise _ => EmptyString
  end.

Definition letter_call (x y step : Z) : draw_call :=
  let text := text_of step in
  let '(b0, b1, b2, b3) := textbbox text in
  Text (x + (LETTER_WIDTH - (b2 - b0)) / 2)
       (y + PIPELINE_HEIGHT / 2 - (b3 - b1) / 2) text.

Definition rgb_of (panel : Image) : rgb_panel :=
  if mode_eqb (img_mode panel) RGBA then AlphaOnWhite panel else ConvertRGB panel.

(** The drawing calls a row is expected to make, with its gutter
    starting at [x] and its first panel being step [step]: per panel
    the label and the panel, and an arrow if a panel follows. *)
Fixpoint row_calls (start_y step x : Z) (row : list Image) : list draw_call :=
  match row with
  | [] => []
  | p :: rest =>
      let xe := x + LETTER_WIDTH + width p in
      let cy := start_y + PIPELINE_HEIGHT / 2 in
      letter_call x start_y step
      :: Paste (rgb_of p) (x + LETTER_WIDTH) start_y
      :: match rest with
         | [] => []
         | _ :: _ =>
             Arrow xe cy (xe + ARROW_WIDTH) cy
             :: row_calls start_y (step + 1) (xe + ARROW_WIDTH) rest
         end
  end.

(** Where the cursor stands after a row. *)
Fixpoint row_end (x : Z) (row : list Image) : Z :=
  match row with
  | [] => x
  | p :: rest =>
      let xe := x + LETTER_WIDTH + width p in
      match rest with
      | [] => xe
      | _ :: _ => row_end (xe + ARROW_WIDTH) rest
      end
  end.

(** What a list of drawing calls holds of each kind. *)
Definition texts (l : list draw_call) : list string :=
  flat_map (fun c => match c with Text _ _ t => [t] | _ => [] end) l.

Definition panel_of (r : rgb_panel) : Image :=
  match r with AlphaOnWhite p | ConvertRGB p => p end.

Definition pasted (l : list draw_call) : list (Image * Z * Z) :=
  flat_map (fun c => match c with Paste r x y => [(panel_of r, x, y)] | _ => [] end) l.

Definition arrows (l : list draw_call) : list (Z * Z * Z * Z) :=
  flat_map (fun c => match c with Arrow x1 y1 x2 y2 => [(x1, y1, x2, y2)] | _ => [] end) l.

(** The left edges of the panels of a row whose gutter starts at
    [x]: a gutter before each panel, an arrow gap after it. *)
Fixpoint panel_xs (x : Z) (row : list Image) : list Z :=
  match row with
  | [] => []
  | p :: rest =>
      (x + LETTER_WIDTH) :: panel_xs (x + LETTER_WIDTH + width p + ARROW_WIDTH) rest
  end.

(** One arrow per pair of neighbours in a row of placed panels, from
    the right edge of the left one to the gutter of the right one, at
    height [cy]. *)
Fixpoint gap_arrows (cy : Z) (placed : list (Image * Z)) : list (Z * Z * Z * Z) :=
  match placed with
  | [] => []
  | (p, x) :: rest =>
      match rest with
      | [] => []
      | (_, x') :: _ => (x + width p, cy, x' - LETTER_WIDTH, cy) :: gap_arrows cy rest
      end
  end.

(** The steps [first], [first + 1], ... of [n] panels. *)
Fixpoint steps (first : Z) (n : nat) : list Z :=
  match n with
  | O => []
  | S k => first :: steps (first + 1) k
  end.

(** Where the two rows lie on the canvas. *)
Definition row1_y : Z := PADDING.
Definition row2_y : Z := PADDING + PIPELINE_HEIGHT + ROW_GAP.

Definition row1_calls (panels : list Image) : list draw_call :=
  row_calls row1_y 1 PADDING (row1_of panels).

Definition row2_calls (panels : list Image) : list draw_call :=
  let row1 := row1_of panels in
  let row2 := row2_of panels in
  row_calls row2_y (len row1 + 1)
    (row2_start_x (row_width row1) (row_width row2)) row2.
End Expected.

(** ** Notions for the further properties *)

(** Every character of [s] passes [P]. *)
Fixpoint all_chars (P : ascii -> bool) (s : string) : bool :=
  match s with
  | EmptyString => true
  | String c s' => P c && all_chars P s'
  end.

(** The characters [str] writes for an integer: the digits and the
    minus sign. *)
Definition numeral_char (c : ascii) : bool :=
  match Py.digit c with
  | Some _ => true
  | None => Ascii.eqb c "-"%char
  end.

(** The stem of the file [GA_image<n>.png]. *)
Definition numbered (n : Z) : string := ("GA_image" ++ Py.str n)%string.

(** [x] comes somewhere before [y] in [l]. *)
Definition precedes {A : Type} (x y : A) (l : list A) : Prop :=
  exists l1 l2 l3, l = l1 ++ x :: l2 ++ y :: l3.

Section MoreNotions.
Context {lib : Imaging}.

(** [p] is the panel the loop of [main] makes of the file [f]. *)
Definition prepared_from (f : source_file) (p : Image) : Prop :=
  exists img,
    load_and_prepare f = Py.Ok img /\ resize_to_height img PIPELINE_HEIGHT = Py.Ok p.

(** The rectangle of size [w] by [h] at [(x, y)] lies on the canvas,
    clear of the padding on all four sides. *)
Definition inside_padding (cv : canvas) (x y w h : Z) : Prop :=
  PADDING <= x /\ x + w <= canvas_width cv - PADDING
  /\ PADDING <= y /\ y + h <= canvas_height cv - PADDING.
End MoreNotions.

(** ** The primitives at work *)

Example int_plain : Py.int "12" = Some 12.
Proof. reflexivity. Qed.
Example int_signed_spaced : Py.int " -1_0 " = Some (-10).
Proof. reflexivity. Qed.
Example int_two_underscores : Py.int "1__0" = None.
Proof. reflexivity. Qed.
Example int_empty : Py.int EmptyString = None.
Proof. reflexivity. Qed.
Example int_letters : Py.int "_old" = None.
Proof. reflexivity. Qed.
Example str_27 : Py.str 27 = "27"%string.
Proof. reflexivity. Qed.
Example str_1000 : Py.str 1000 = "1000"%string.
Proof. reflexivity. Qed.
Example str_0 : Py.str 0 = "0"%string.
Proof. reflexivity. Qed.
Example remove_prefix : Py.remove "GA_image" "GA_image12" = "12"%string.
Proof. reflexivity. Qed.
Example remove_all : Py.remove "GA_image" "xGA_imageGA_imagey" = "xy"%string.
Proof. reflexivity. Qed.

(** ** resize_to_height *)

Section ResizeFacts.
Context {lib : Imaging}.

Lemma resize_size (img r : Image) (w h : Z) :
  resize img w h = Py.Ok r -> width r = w /\ height r = h.
Proof.
  unfold resize. destruct ((w <? 1) || (h <? 1)); intros E; inversion E; auto.
Qed.

Lemma resize_to_height_height (img r : Image) (t : Z) :
  resize_to_height img t = Py.Ok r -> height r = t.
Proof.
  unfold resize_to_height.
  destruct (height img =? t) eqn:Eh.
  - intros E; inversion E; subst. now apply Z.eqb_eq.
  - destruct (height img =? 0); [discriminate|].
    intros E. now apply resize_size in E.
Qed.
End ResizeFacts.

Section ResizeClaims.
Context {lib : Imaging}.

Lemma quot_is_floor (a b : Z) : 0 < b -> 1 <= Z.quot a b -> Z.quot a b = a / b.
Proof.
  intros Hb Hq.
  destruct (Z_lt_le_dec a 0) as [Ha|Ha].
  - assert (0 <= Z.quot (- a) b) by (apply Z.quot_pos; lia).
    rewrite Z.quot_opp_l in H by lia. lia.
  - apply Z.quot_div_nonneg; lia.
Qed.

(** C2, as amended: for an image of width [w] and height [h > 0], a
    panel that [resize_to_height] returns has the target height
    exactly and width [floor (w * target / h)], the quotient with its
    fraction dropped; and a panel is returned as soon as [h] is the
    target already or that width is at least 1. *)
Theorem resize_to_height_floor (img : Image) (t : Z) :
  0 < height img -> 1 <= t ->
  (forall p, resize_to_height img t = Py.Ok p ->
     height p = t /\ width p = width img * t / height img)
  /\ (height img = t \/ 1 <= width img * t / height img ->
      exists p, resize_to_height img t = Py.Ok p).
Proof.
  intros Hh Ht. unfold resize_to_height, resize.
  destruct (height img =? t) eqn:Eh.
  - apply Z.eqb_eq in Eh. split.
    + intros p E. inversion E; subst p. split; [exact Eh|].
      rewrite Eh. symmetry. apply Z.div_mul. lia.
    + intros _. eexists. reflexivity.
  - apply Z.eqb_neq in Eh.
    destruct (height img =? 0) eqn:E0; [apply Z.eqb_eq in E0; lia|].
    destruct (Z.quot (width img * t) (height img) <? 1) eqn:Eq; simpl.
    + apply Z.ltb_lt in Eq. split; [intros p E|intros [E|E]].
      * discriminate.
      * contradiction.
      * destruct (Z_lt_le_dec (width img * t) 0) as [Hn|Hn].
        -- assert (width img * t / height img < 0)
             by (apply Z.div_lt_upper_bound; lia). lia.
        -- rewrite Z.quot_div_nonneg in Eq by lia. lia.
    + apply Z.ltb_ge in Eq.
      assert ((t <? 1) = false) as -> by (apply Z.ltb_ge; lia).
      split.
      * intros p E. inversion E; subst p; simpl. split; [reflexivity|].
        apply quot_is_floor; lia.
      * intros _. eexists. reflexivity.
Qed.

(** C10: an image whose height is the target already is returned as
    it is, and resizing the result of [resize_to_height] once more to
    the same target changes nothing. *)
Theorem resize_to_height_idempotent (img : Image) (t : Z) :
  resize_to_height
    {| width := width img; height := t; img_mode := img_mode img;
       pixels := pixels img |} t
  = Py.Ok {| width := width img; height := t; img_mode := img_mode img;
             pixels := pixels img |}
  /\ (r <- resize_to_height img t ;; resize_to_height r t) = resize_to_height img t.
Proof.
  split.
  - unfold resize_to_height; simpl. now rewrite Z.eqb_refl.
  - destruct (resize_to_height img t) as [r|e] eqn:E; simpl; [|reflexivity].
    apply resize_to_height_height in E.
    unfold resize_to_height. rewrite E, Z.eqb_refl. reflexivity.
Qed.
End ResizeClaims.

Lemma resize_to_height_floor_witness :
  0 < 1000 /\ 1 <= PIPELINE_HEIGHT /\
  (forall p, resize_to_height (sample_image 0 5 1000) PIPELINE_HEIGHT = Py.Ok p ->
     height p = PIPELINE_HEIGHT /\ width p = 5 * PIPELINE_HEIGHT / 1000)
  /\ (1000 = PIPELINE_HEIGHT \/ 1 <= 5 * PIPELINE_HEIGHT / 1000 ->
      exists p, resize_to_height (sample_image 0 5 1000) PIPELINE_HEIGHT = Py.Ok p).
Proof.
  split; [lia|]. split; [unfold PIPELINE_HEIGHT; lia|].
  apply (resize_to_height_floor (sample_image 0 5 1000) PIPELINE_HEIGHT).
  - simpl; lia.
  - unfold PIPELINE_HEIGHT; lia.
Defined.

(** C2 as written fails: a 5 x 1000 image is given width 1, while the
    ratio 5 * 340 / 1000 = 1.7 rounds to 2. *)
Lemma resize_to_height_not_nearest :
  exists p,
    resize_to_height (sample_image 0 5 1000) PIPELINE_HEIGHT = Py.Ok p
    /\ height p = PIPELINE_HEIGHT
    /\ width p = 1
    /\ is_nearest (5 * PIPELINE_HEIGHT) 1000 2
    /\ ~ is_nearest (5 * PIPELINE_HEIGHT) 1000 (width p).
Proof.
  eexists. split; [reflexivity|]. simpl.
  split; [reflexivity|]. split; [reflexivity|]. split.
  - intros k. unfold PIPELINE_HEIGHT. lia.
  - intros H. specialize (H 2). cbn in H. lia.
Qed.

(** ** The order on sort keys *)

Section KeyOrder.

Lemma ascii_compare_refl (c : ascii) : Ascii.compare c c = Eq.
Proof. unfold Ascii.compare. apply N.compare_refl. Qed.

Lemma string_compare_refl (s : string) : String.compare s s = Eq.
Proof.
  induction s as [|c s IH]; simpl; [reflexivity|].
  now rewrite ascii_compare_refl.
Qed.

Lemma string_compare_trans (a b c : string) :
  String.compare a b = Lt -> String.compare b c = Lt -> String.compare a c = Lt.
Proof.
  revert b c. induction a as [|x a IH]; intros [|y b] [|z c]; simpl;
    try discriminate; try reflexivity.
  unfold Ascii.compare.
  destruct (N.compare_spec (N_of_ascii x) (N_of_ascii y)) as [E1|L1|G1];
    destruct (N.compare_spec (N_of_ascii y) (N_of_ascii z)) as [E2|L2|G2];
    try discriminate; intros H1 H2.
  - rewrite E1, E2, N.compare_refl. eauto.
  - rewrite E1. now apply N.compare_lt_iff in L2 as ->.
  - rewrite <- E2. now apply N.compare_lt_iff in L1 as ->.
  - assert (N_of_ascii x < N_of_ascii z)%N as L by lia.
    now apply N.compare_lt_iff in L as ->.
Qed.

Lemma string_ltb_lt (s t : string) : String.ltb s t = true <-> String.compare s t = Lt.
Proof. unfold String.ltb. destruct (String.compare s t); intuition discriminate. Qed.

Lemma tuple_lt_irrefl (a : Z * string) : Py.tuple_lt a a = false.
Proof.
  unfold Py.tuple_lt. rewrite Z.ltb_irrefl, Z.eqb_refl. simpl.
  unfold String.ltb. now rewrite string_compare_refl.
Qed.

Lemma tuple_lt_trans (a b c : Z * string) :
  Py.tuple_lt a b = true -> Py.tuple_lt b c = true -> Py.tuple_lt a c = true.
Proof.
  unfold Py.tuple_lt. destruct a as [a s], b as [b t], c as [c u]; simpl.
  rewrite !orb_true_iff, !andb_true_iff, !Z.ltb_lt, !Z.eqb_eq, !string_ltb_lt.
  intros [H1|[H1 S1]] [H2|[H2 S2]]; try (left; lia).
  right. split; [lia|]. eapply string_compare_trans; eassumption.
Qed.

(** Two different keys are ordered one way or the other. *)
Lemma tuple_lt_total (a b : Z * string) :
  Py.tuple_lt a b = false -> Py.tuple_lt b a = false -> a = b.
Proof.
  unfold Py.tuple_lt. destruct a as [a s], b as [b t]; simpl.
  rewrite !orb_false_iff, !andb_false_iff, !Z.ltb_ge, !Z.eqb_neq.
  intros [H1 S1] [H2 S2].
  assert (a = b) as -> by lia. f_equal.
  destruct S1 as [S1|S1]; [congruence|]. destruct S2 as [S2|S2]; [congruence|].
  unfold String.ltb in S1, S2.
  rewrite String.compare_antisym in S2.
  destruct (String.compare s t) eqn:E; try discriminate.
  now apply String.compare_eq_iff.
Qed.

Lemma tuple_le_trans (a b c : Z * string) :
  tuple_le a b -> tuple_le b c -> tuple_le a c.
Proof.
  unfold tuple_le. intros H1 H2.
  destruct (Py.tuple_lt c a) eqn:E; [|reflexivity].
  destruct (Py.tuple_lt a b) eqn:E1.
  - rewrite (tuple_lt_trans c a b E E1) in H2. discriminate.
  - rewrite <- (tuple_lt_total a b E1 H1), E in H2. discriminate.
Qed.

Lemma tuple_lt_le (a b : Z * string) : Py.tuple_lt a b = true -> tuple_le a b.
Proof.
  unfold tuple_le. intros H. destruct (Py.tuple_lt b a) eqn:E; [|reflexivity].
  rewrite <- (tuple_lt_irrefl a). symmetry. eapply tuple_lt_trans; eassumption.
Qed.

End KeyOrder.

(** ** list.sort *)

Section SortFacts.
Context {A : Type} (key : A -> Z * string).

Lemma insert_perm (x : A) (l : list A) : Permutation (Py.insert key x l) (x :: l).
Proof.
  induction l as [|y l IH]; simpl; [reflexivity|].
  destruct (Py.tuple_lt (key y) (key x)); [|reflexivity].
  rewrite IH. apply perm_swap.
Qed.

Lemma sort_perm (l : list A) : Permutation (Py.sort key l) l.
Proof.
  induction l as [|x l IH]; simpl; [reflexivity|].
  rewrite insert_perm. now constructor.
Qed.

Lemma insert_sorted (x : A) (l : list A) :
  StronglySorted (key_le key) l -> StronglySorted (key_le key) (Py.insert key x l).
Proof.
  induction 1 as [|y l Hs IH Hy]; simpl.
  - repeat constructor.
  - destruct (Py.tuple_lt (key y) (key x)) eqn:E.
    + constructor; [exact IH|].
      apply (Permutation_Forall (Permutation_sym (insert_perm x l))).
      constructor; [now apply tuple_lt_le|exact Hy].
    + constructor; [now constructor|].
      constructor; [exact E|].
      eapply Forall_impl; [|exact Hy].
      intros z Hz. eapply tuple_le_trans; [exact E|exact Hz].
Qed.

Lemma sort_sorted (l : list A) : StronglySorted (key_le key) (Py.sort key l).
Proof.
  induction l as [|x l IH]; simpl; [constructor|]. now apply insert_sorted.
Qed.

Lemma key_inj_on (l : list A) (x y : A) :
  NoDup (map key l) -> In x l -> In y l -> key x = key y -> x = y.
Proof.
  induction l as [|z l IH]; simpl; [contradiction|].
  intros Hnd Hx Hy E. inversion Hnd as [|? ? Hz Hl]; subst.
  destruct Hx as [->|Hx], Hy as [->|Hy]; auto.
  - exfalso. apply Hz. rewrite E. now apply in_map.
  - exfalso. apply Hz. rewrite <- E. now apply in_map.
Qed.

(** A list without two equal keys has one sorted arrangement. *)
Lemma sorted_unique (l1 l2 : list A) :
  StronglySorted (key_le key) l1 -> StronglySorted (key_le key) l2 ->
  Permutation l1 l2 -> NoDup (map key l1) -> l1 = l2.
Proof.
  intros H1. revert l2. induction H1 as [|a l1 Hs IH Ha]; intros l2 H2 P Hnd.
  - now apply Permutation_nil in P.
  - destruct H2 as [|b l2 Hs2 Hb].
    + symmetry in P. now apply Permutation_nil in P.
    + assert (a = b) as <-.
      { apply (key_inj_on (a :: l1)); auto.
        - now left.
        - apply (Permutation_in b (Permutation_sym P)). now left.
        - assert (key_le key a b) as Lab.
          { assert (In b (a :: l1)) as [->|Hin]
              by (apply (Permutation_in b (Permutation_sym P)); now left).
            - apply tuple_lt_irrefl.
            - rewrite Forall_forall in Ha. now apply Ha. }
          assert (key_le key b a) as Lba.
          { assert (In a (b :: l2)) as [->|Hin]
              by (apply (Permutation_in a P); now left).
            - apply tuple_lt_irrefl.
            - rewrite Forall_forall in Hb. now apply Hb. }
          symmetry. now apply tuple_lt_total. }
      f_equal. apply IH; auto.
      * now apply Permutation_cons_inv in P.
      * simpl in Hnd. now inversion Hnd.
Qed.

(** The sorted list does not depend on the order the elements come
    in, when no two of them have the same key. *)
Lemma sort_order_independent (l1 l2 : list A) :
  Permutation l1 l2 -> NoDup (map key l1) -> Py.sort key l1 = Py.sort key l2.
Proof.
  intros P Hnd. apply sorted_unique; auto using sort_sorted.
  - rewrite !sort_perm. exact P.
  - eapply Permutation_NoDup; [|exact Hnd].
    apply Permutation_map, Permutation_sym, sort_perm.
Qed.

End SortFacts.

(** ** discover_images *)

Section DiscoverFacts.
Context {lib : Imaging}.

Lemma sort_key_snd (s : string) : snd (sort_key s) = s.
Proof.
  unfold sort_key. destruct (String.eqb s "GA_image"); [reflexivity|].
  destruct (if String.eqb _ EmptyString then _ else _); reflexivity.
Qed.

Lemma discover_images_perm (paths : list source_file) :
  Permutation (discover_images paths) paths.
Proof. apply sort_perm. Qed.

(** The discovered order is ascending by [sort_key]: by index first,
    by stem among equal indices. *)
Lemma discover_images_sorted (paths : list source_file) :
  StronglySorted (fun p q => tuple_le (sort_key (stem p)) (sort_key (stem q)))
    (discover_images paths).
Proof. apply (sort_sorted (fun p => sort_key (stem p))). Qed.

Lemma discover_images_nil (paths : list source_file) :
  discover_images paths = [] <-> paths = [].
Proof.
  split; intros E.
  - apply Permutation_nil. rewrite <- E. apply discover_images_perm.
  - now subst.
Qed.

Lemma discover_images_order_independent (l1 l2 : list source_file) :
  Permutation l1 l2 -> NoDup (map stem l1) ->
  discover_images l1 = discover_images l2.
Proof.
  intros P Hnd. apply sort_order_independent; [exact P|].
  rewrite <- (map_map stem sort_key).
  apply Finite.Injective_map_NoDup; [|exact Hnd].
  intros s t E. now rewrite <- (sort_key_snd s), <- (sort_key_snd t), E.
Qed.

(** C8: the files of a directory come in whatever order the scan
    yields, and are told apart by their names; two runs over the same
    files, with the same library underneath, return, print and save the
    same thing: the same canvas, drawn by the same calls on the same
    pixel data. *)
Theorem main_deterministic (w1 w2 : world) :
  assets_exists w1 = assets_exists w2 ->
  Permutation (globbed w1) (globbed w2) ->
  NoDup (map stem (globbed w1)) ->
  main w1 = main w2.
Proof.
  intros Ha P Hnd. unfold main.
  now rewrite Ha, (discover_images_order_independent _ _ P Hnd).
Qed.
End DiscoverFacts.

Example sort_key_bare : @sort_key "GA_image" = (0, "GA_image"%string).
Proof. reflexivity. Qed.
Example sort_key_numbered : @sort_key "GA_image12" = (12, "GA_image12"%string).
Proof. reflexivity. Qed.
Example sort_key_other : @sort_key "GA_image_old" = (999, "GA_image_old"%string).
Proof. reflexivity. Qed.

(** C1: the index given to a suffix that is no number is 999, so such
    a file is put in front of a numbered file from 1000 on, where the
    claim wants it after every numbered file. *)
Theorem discover_images_sentinel :
  sort_key "GA_imagex" = (999, "GA_imagex"%string)
  /\ sort_key "GA_image1000" = (1000, "GA_image1000"%string)
  /\ map stem
       (discover_images
          [sample_file "GA_image1000" 1 10 10; sample_file "GA_imagex" 2 10 10;
           sample_file "GA_image" 3 10 10])
     = ["GA_image"; "GA_imagex"; "GA_image1000"]%string.
Proof. repeat split. Qed.

Lemma main_deterministic_witness :
  let a := sample_file "GA_image" 1 680 680 in
  let b := sample_file "GA_image1" 2 340 340 in
  main {| assets_exists := true; globbed := [a; b] |}
  = main {| assets_exists := true; globbed := [b; a] |}.
Proof.
  intros a b. apply main_deterministic.
  - reflexivity.
  - apply perm_swap.
  - simpl. repeat constructor; simpl; intuition discriminate.
Defined.

(** ** Rows and the calls that draw them *)

Section RowFacts.
Context {lib : Imaging}.

Lemma section_text_ok (step : Z) :
  1 <= step -> section_text step = Py.Ok (text_of step).
Proof.
  intros H. unfold text_of, section_text.
  destruct (step <=? 26) eqn:E; [|reflexivity].
  apply Z.leb_le in E. unfold Py.chr.
  replace ((0 <=? Py.ord "A" + step - 1) && (Py.ord "A" + step - 1 <? 256))
    with true; [reflexivity|].
  symmetry. apply andb_true_iff. change (Py.ord "A") with 65.
  split; [apply Z.leb_le|apply Z.ltb_lt]; lia.
Qed.

Lemma draw_section_letter_ok (cv : canvas) (x y step : Z) :
  1 <= step ->
  draw_section_letter cv x y PIPELINE_HEIGHT step
  = Py.Ok (draw_on cv (letter_call x y step)).
Proof.
  intros H. unfold draw_section_letter, letter_call.
  rewrite (section_text_ok step H). simpl.
  destruct (textbbox (text_of step)) as [[[b0 b1] b2] b3]. reflexivity.
Qed.

Lemma len_cons {A : Type} (a : A) (l : list A) : len (a :: l) = len l + 1.
Proof. unfold len. simpl List.length. lia. Qed.

Lemma len_nonneg {A : Type} (l : list A) : 0 <= len l.
Proof. unfold len. lia. Qed.

(** The loop of [draw_row], entered at index [i] with [rest] still to
    draw, adds the expected calls and leaves the cursor at the end of
    the row. *)
Lemma draw_row_loop_calls (rest : list Image) :
  forall (n start_y step_start i x last_cx : Z) (cv : canvas),
    n = i + len rest -> 1 <= step_start + i ->
    exists last_cx',
      draw_row_loop n start_y (start_y + PIPELINE_HEIGHT / 2) step_start
        i rest x last_cx cv
      = Py.Ok (row_end x rest, last_cx',
               {| canvas_width := canvas_width cv;
                  canvas_height := canvas_height cv;
                  calls := calls cv ++ row_calls start_y (step_start + i) x rest |}).
Proof.
  induction rest as [|p rest IH]; intros n start_y step_start i x last_cx cv Hn Hs.
  - exists last_cx. simpl. rewrite app_nil_r. now destruct cv.
  - cbn [draw_row_loop]. rewrite (draw_section_letter_ok _ _ _ _ Hs).
    cbn [Py.bind]. rewrite len_cons in Hn.
    destruct rest as [|q rest].
    + assert ((i <? n - 1) = false) as -> by (apply Z.ltb_ge; unfold len in Hn; simpl in Hn; lia).
      eexists. cbn [draw_row_loop row_end row_calls].
      unfold paste_panel, draw_on, rgb_of; cbn [calls canvas_width canvas_height].
      rewrite <- !app_assoc. cbn [app].
      replace (x + (LETTER_WIDTH + width p)) with (x + LETTER_WIDTH + width p) by lia.
      reflexivity.
    + assert ((i <? n - 1) = true) as ->
        by (apply Z.ltb_lt; pose proof (len_nonneg rest);
            rewrite len_cons in Hn; lia).
      edestruct (IH n start_y step_start (i + 1)) as [l' E];
        [rewrite len_cons in *; lia|lia|rewrite E].
      exists l'. cbn [row_end row_calls].
      unfold draw_arrow, paste_panel, draw_on, rgb_of;
        cbn [calls canvas_width canvas_height].
      rewrite <- !app_assoc. cbn [app].
      replace (step_start + (i + 1)) with (step_start + i + 1) by lia.
      replace (x + (LETTER_WIDTH + width p)) with (x + LETTER_WIDTH + width p) by lia.
      reflexivity.
Qed.

Lemma draw_row_calls (cv : canvas) (row : list Image) (start_y step start_x : Z) :
  row <> [] -> 1 <= step ->
  exists first_cx last_cx,
    draw_row cv row start_y step start_x
    = Py.Ok (first_cx, last_cx,
             {| canvas_width := canvas_width cv;
                canvas_height := canvas_height cv;
                calls := calls cv ++ row_calls start_y step start_x row |}).
Proof.
  intros Hr Hs. unfold draw_row. destruct row as [|p0 row]; [contradiction|].
  edestruct (draw_row_loop_calls (p0 :: row) (len (p0 :: row)) start_y step 0)
    as [l' E]; [lia|lia|rewrite E].
  cbn [Py.bind]. replace (step + 0) with step by lia. eauto.
Qed.

(** How [panels] falls into rows. *)
Lemma rows_split (panels : list Image) :
  row1_of panels = firstn 3 panels /\ row2_of panels = skipn 3 panels.
Proof.
  assert (row1_of panels = firstn 3 panels) as E.
  { unfold row1_of. destruct panels as [|a [|b [|c l]]]; try reflexivity.
    replace (Z.to_nat (Z.min 3 (len (a :: b :: c :: l)))) with 3%nat
      by (unfold len; simpl List.length; lia).
    reflexivity. }
  split; [exact E|]. unfold row2_of. rewrite E.
  destruct panels as [|a [|b [|c l]]]; reflexivity.
Qed.
End RowFacts.

Section CallFacts.
Context {lib : Imaging}.

Lemma texts_app (a b : list draw_call) : texts (a ++ b) = texts a ++ texts b.
Proof. apply flat_map_app. Qed.

Lemma pasted_app (a b : list draw_call) : pasted (a ++ b) = pasted a ++ pasted b.
Proof. apply flat_map_app. Qed.

Lemma arrows_app (a b : list draw_call) : arrows (a ++ b) = arrows a ++ arrows b.
Proof. apply flat_map_app. Qed.

Lemma panel_of_rgb_of (p : Image) : panel_of (rgb_of p) = p.
Proof. unfold rgb_of. now destruct (mode_eqb _ _). Qed.

Lemma texts_letter_call (x y step : Z) (l : list draw_call) :
  texts (letter_call x y step :: l) = text_of step :: texts l.
Proof.
  unfold letter_call. now destruct (textbbox _) as [[[b0 b1] b2] b3].
Qed.

Lemma pasted_letter_call (x y step : Z) (l : list draw_call) :
  pasted (letter_call x y step :: l) = pasted l.
Proof.
  unfold letter_call. now destruct (textbbox _) as [[[b0 b1] b2] b3].
Qed.

Lemma arrows_letter_call (x y step : Z) (l : list draw_call) :
  arrows (letter_call x y step :: l) = arrows l.
Proof.
  unfold letter_call. now destruct (textbbox _) as [[[b0 b1] b2] b3].
Qed.

Lemma texts_row_calls (row : list Image) :
  forall y step x,
    texts (row_calls y step x row) = map text_of (steps step (List.length row)).
Proof.
  induction row as [|p row IH]; intros y step x; [reflexivity|].
  cbn [row_calls]. rewrite texts_letter_call. cbn [List.length steps map].
  f_equal. destruct row as [|q row]; [reflexivity|].
  change (texts (Paste ?r ?a ?b :: Arrow ?c ?d ?e ?f :: ?l)) with (texts l).
  apply IH.
Qed.

Lemma pasted_row_calls (row : list Image) :
  forall y step x,
    pasted (row_calls y step x row)
    = map (fun px => (fst px, snd px, y)) (combine row (panel_xs x row)).
Proof.
  induction row as [|p row IH]; intros y step x; [reflexivity|].
  cbn [row_calls]. rewrite pasted_letter_call. cbn [panel_xs combine map fst snd].
  change (pasted (Paste ?r ?a ?b :: ?l)) with ((panel_of r, a, b) :: pasted l).
  rewrite panel_of_rgb_of. f_equal.
  destruct row as [|q row]; [reflexivity|].
  change (pasted (Arrow ?c ?d ?e ?f :: ?l)) with (pasted l).
  apply IH.
Qed.

Lemma arrows_row_calls (row : list Image) :
  forall y step x,
    arrows (row_calls y step x row)
    = gap_arrows (y + PIPELINE_HEIGHT / 2) (combine row (panel_xs x row)).
Proof.
  induction row as [|p row IH]; intros y step x; [reflexivity|].
  cbn [row_calls]. rewrite arrows_letter_call.
  change (arrows (Paste ?r ?a ?b :: ?l)) with (arrows l).
  destruct row as [|q row]; [reflexivity|].
  change (arrows (Arrow ?c ?d ?e ?f :: ?l)) with ((c, d, e, f) :: arrows l).
  rewrite IH. cbn [panel_xs combine gap_arrows].
  replace (x + LETTER_WIDTH + width p + ARROW_WIDTH + LETTER_WIDTH - LETTER_WIDTH)
    with (x + LETTER_WIDTH + width p + ARROW_WIDTH) by lia.
  reflexivity.
Qed.

Lemma steps_app (n m : nat) :
  forall first, steps first (n + m) = steps first n ++ steps (first + Z.of_nat n) m.
Proof.
  induction n as [|n IH]; intros first.
  - simpl. now rewrite Z.add_0_r.
  - cbn [Nat.add steps app]. rewrite IH. do 3 f_equal. lia.
Qed.

Lemma length_panel_xs (row : list Image) : forall x, List.length (panel_xs x row) = List.length row.
Proof. induction row; intros x; simpl; auto. Qed.

Lemma map_fst_combine_panel_xs (row : list Image) :
  forall x, map fst (combine row (panel_xs x row)) = row.
Proof. induction row as [|p row IH]; intros x; simpl; [|rewrite IH]; auto. Qed.

(** A row of [k] placed panels has [k - 1] gap arrows, each
    [ARROW_WIDTH] long and level at [cy]. *)
Lemma gap_arrows_length (cy : Z) (placed : list (Image * Z)) :
  List.length (gap_arrows cy placed) = (List.length placed - 1)%nat.
Proof.
  induction placed as [|[p x] placed IH]; [reflexivity|].
  destruct placed as [|[q x'] placed]; [reflexivity|].
  cbn [gap_arrows List.length] in *. rewrite IH. lia.
Qed.

Lemma gap_arrows_count (cy : Z) (row : list Image) (x : Z) :
  List.length (gap_arrows cy (combine row (panel_xs x row)))
  = (List.length row - 1)%nat.
Proof.
  rewrite gap_arrows_length, length_combine, length_panel_xs. lia.
Qed.

Lemma gap_arrows_level (cy : Z) (row : list Image) :
  forall x,
    Forall (fun a => match a with
                     | (x1, y1, x2, y2) => x2 = x1 + ARROW_WIDTH /\ y1 = cy /\ y2 = cy
                     end)
      (gap_arrows cy (combine row (panel_xs x row))).
Proof.
  induction row as [|p row IH]; intros x; [constructor|].
  destruct row as [|q row]; [constructor|].
  cbn [panel_xs combine gap_arrows]. constructor.
  - repeat split. lia.
  - apply (IH (x + LETTER_WIDTH + width p + ARROW_WIDTH)).
Qed.

Lemma row1_nonempty (panels : list Image) : panels <> [] -> row1_of panels <> [].
Proof.
  destruct (rows_split panels) as [-> _]. destruct panels; [contradiction|discriminate].
Qed.

Lemma rows_app (panels : list Image) : row1_of panels ++ row2_of panels = panels.
Proof. destruct (rows_split panels) as [-> ->]. apply firstn_skipn. Qed.

(** What [compose] makes of a non-empty list of panels: a canvas of
    the planned size holding the calls of row 1, then those of row 2. *)
Lemma compose_calls (panels : list Image) :
  panels <> [] ->
  compose panels
  = Py.Ok {| canvas_width :=
               Z.max (row_width (row1_of panels))
                 (if is_empty (row2_of panels) then 0 else row_width (row2_of panels))
               + PADDING * 2;
             canvas_height :=
               if is_empty (row2_of panels) then PIPELINE_HEIGHT + PADDING * 2
               else PIPELINE_HEIGHT * 2 + ROW_GAP + PADDING * 2;
             calls := row1_calls panels ++ row2_calls panels |}.
Proof.
  intros Hp. unfold compose, row1_calls, row2_calls.
  edestruct (draw_row_calls) as (f1 & l1 & E1);
    [apply (row1_nonempty panels Hp)| |rewrite E1]; [lia|].
  cbn [Py.bind snd calls canvas_width canvas_height app].
  destruct (row2_of panels) as [|q row2] eqn:E2.
  - cbn [is_empty row_calls]. now rewrite app_nil_r.
  - cbn [is_empty].
    edestruct (draw_row_calls) as (f2 & l2 & E); [| |rewrite E].
    + discriminate.
    + pose proof (len_nonneg (row1_of panels)). lia.
    + reflexivity.
Qed.
End CallFacts.

(** ** Layout *)

Section LayoutClaims.
Context {lib : Imaging}.

Lemma row_width_spec (row : list Image) :
  row <> [] -> row_width row = spec_row_width row.
Proof.
  intros H. unfold row_width, spec_row_width. f_equal. f_equal.
  destruct row as [|p row]; [contradiction|].
  rewrite len_cons. pose proof (len_nonneg row). lia.
Qed.

Lemma row_width_nonneg (row : list Image) :
  Forall (fun p => 0 <= width p) row -> 0 <= row_width row.
Proof.
  intros H. unfold row_width.
  assert (0 <= fold_right Z.add 0 (map (fun p => LETTER_WIDTH + width p) row)).
  { induction H as [|p row Hp _ IH]; cbn [map fold_right]; [lia|].
    unfold LETTER_WIDTH in *. lia. }
  unfold ARROW_WIDTH. lia.
Qed.

(** Drawing a row moves the cursor by the width of the row. *)
Lemma row_end_width (row : list Image) :
  forall x, row <> [] -> row_end x row = x + row_width row.
Proof.
  induction row as [|p row IH]; intros x H; [contradiction|].
  destruct row as [|q row].
  - unfold row_width. cbn [row_end map fold_right]. rewrite len_cons.
    unfold len. cbn [List.length]. lia.
  - change (row_end x (p :: q :: row))
      with (row_end (x + LETTER_WIDTH + width p + ARROW_WIDTH) (q :: row)).
    rewrite IH by discriminate.
    unfold row_width. rewrite !len_cons. cbn [map fold_right].
    pose proof (len_nonneg row). unfold ARROW_WIDTH. lia.
Qed.

(** C4: a row of [k >= 1] panels is as wide as its gutters and
    panels together plus [k - 1] arrow gaps; the canvas is as wide as
    the wider row plus the padding on both sides, and as high as one
    row plus padding when row 2 is empty, as two rows plus the gap
    between them plus padding when it is not. *)
Theorem canvas_size (panels : list Image) :
  panels <> [] ->
  exists cv,
    compose panels = Py.Ok cv
    /\ row_width (row1_of panels) = spec_row_width (row1_of panels)
    /\ (row2_of panels <> [] ->
        row_width (row2_of panels) = spec_row_width (row2_of panels))
    /\ canvas_width cv
       = Z.max (row_width (row1_of panels))
           (if is_empty (row2_of panels) then 0 else row_width (row2_of panels))
         + 2 * PADDING
    /\ (Forall (fun p => 0 <= width p) panels ->
        canvas_width cv
        = Z.max (spec_row_width (row1_of panels)) (spec_row_width (row2_of panels))
          + 2 * PADDING)
    /\ (row2_of panels = [] -> canvas_height cv = PIPELINE_HEIGHT + 2 * PADDING)
    /\ (row2_of panels <> [] ->
        canvas_height cv = 2 * PIPELINE_HEIGHT + ROW_GAP + 2 * PADDING).
Proof.
  intros Hp. eexists. split; [apply (compose_calls panels Hp)|].
  cbn [canvas_width canvas_height].
  pose proof (row1_nonempty panels Hp) as H1.
  split; [now apply row_width_spec|].
  split; [apply row_width_spec|].
  split; [lia|].
  split; [|split].
  - intros Hw. rewrite <- (rows_app panels) in Hw. apply Forall_app in Hw as [Hw1 _].
    apply row_width_nonneg in Hw1.
    rewrite <- (row_width_spec _ H1).
    destruct (row2_of panels) as [|q row2] eqn:E2; cbn [is_empty].
    + unfold spec_row_width. cbn. lia.
    + rewrite <- (row_width_spec (q :: row2)) by discriminate. lia.
  - intros ->. cbn [is_empty]. lia.
  - intros H2. destruct (row2_of panels); [contradiction|]. cbn [is_empty]. lia.
Qed.

(** C3, as amended: row 2 starts where it is centered under row 1,
    to the pixel the halving allows, when it is not wider than row 1;
    a wider row 2 starts at the left padding, flush with row 1. *)
Theorem row2_centered_when_narrower (panels : list Image) :
  row2_of panels <> [] ->
  let w1 := row_width (row1_of panels) in
  let w2 := row_width (row2_of panels) in
  let x2 := row2_start_x w1 w2 in
  exists cv,
    compose panels = Py.Ok cv
    /\ calls cv
       = row_calls row1_y 1 PADDING (row1_of panels)
         ++ row_calls row2_y (len (row1_of panels) + 1) x2 (row2_of panels)
    /\ row_end PADDING (row1_of panels) = PADDING + w1
    /\ row_end x2 (row2_of panels) = x2 + w2
    /\ (w2 <= w1 -> centered_under PADDING w1 x2 w2)
    /\ (w1 <= w2 -> x2 = PADDING).
Proof.
  intros H2 w1 w2 x2.
  assert (panels <> []) as Hp.
  { intros ->. apply H2. reflexivity. }
  eexists. split; [apply (compose_calls panels Hp)|].
  split; [reflexivity|].
  split; [apply row_end_width, (row1_nonempty panels Hp)|].
  split; [now apply row_end_width|].
  unfold centered_under. subst x2. unfold row2_start_x.
  split; intros Hw.
  - assert (0 <= (w1 - w2) / 2) by (apply Z.div_pos; lia).
    pose proof (Z.div_mod (w1 - w2) 2 ltac:(lia)).
    pose proof (Z.mod_pos_bound (w1 - w2) 2 ltac:(lia)). lia.
  - assert ((w1 - w2) / 2 <= 0) by (apply Z.div_le_upper_bound; lia). lia.
Qed.
End LayoutClaims.

Lemma canvas_size_witness :
  exists cv,
    compose (sample_panels [200; 300; 100; 150]) = Py.Ok cv
    /\ canvas_width cv = 698 /\ canvas_height cv = 724.
Proof.
  destruct (canvas_size (sample_panels [200; 300; 100; 150]) ltac:(discriminate))
    as (cv & E & _ & _ & Hw & _ & _ & Hh).
  exists cv. split; [exact E|]. split.
  - rewrite Hw. reflexivity.
  - rewrite Hh; [reflexivity|discriminate].
Defined.

Lemma row2_centered_when_narrower_witness :
  exists cv,
    compose (sample_panels [200; 300; 100; 150; 50]) = Py.Ok cv
    /\ row2_start_x 674 246 = 226
    /\ centered_under PADDING 674 226 246.
Proof.
  destruct (row2_centered_when_narrower (sample_panels [200; 300; 100; 150; 50])
              ltac:(discriminate))
    as (cv & E & _ & _ & _ & Hc & _).
  exists cv. split; [exact E|]. split; [reflexivity|].
  apply Hc. vm_compute. discriminate.
Defined.

(** C3 as written fails: with seven panels 100 wide, row 2 (502
    wide) is wider than row 1 (374 wide) and starts at the left padding
    like row 1, so it sticks out 128 pixels on the right and none on the
    left. *)
Lemma row2_wider_not_centered :
  let panels := sample_panels [100; 100; 100; 100; 100; 100; 100] in
  let w1 := row_width (row1_of panels) in
  let w2 := row_width (row2_of panels) in
  row2_of panels <> []
  /\ w1 = 374 /\ w2 = 502
  /\ (exists cv, compose panels = Py.Ok cv
                /\ calls cv = row_calls row1_y 1 PADDING (row1_of panels)
                              ++ row_calls row2_y 4 PADDING (row2_of panels))
  /\ row2_start_x w1 w2 = PADDING
  /\ ~ centered_under PADDING w1 (row2_start_x w1 w2) w2.
Proof.
  cbv zeta. split; [discriminate|]. split; [reflexivity|]. split; [reflexivity|].
  split; [eexists; split; reflexivity|]. split; [reflexivity|].
  vm_compute. intros H. now apply H.
Qed.

(** ** What is drawn, and in which order *)

Section DrawingClaims.
Context {lib : Imaging}.

Lemma firstn_min3 (panels : list Image) :
  firstn (Nat.min 3 (List.length panels)) panels = firstn 3 panels.
Proof.
  rewrite <- firstn_firstn. now rewrite firstn_all.
Qed.

Lemma skipn_min3 (panels : list Image) :
  skipn (Nat.min 3 (List.length panels)) panels = skipn 3 panels.
Proof.
  destruct (Nat.le_ge_cases 3 (List.length panels)) as [H|H].
  - now rewrite Nat.min_l.
  - rewrite Nat.min_r by exact H. rewrite skipn_all. symmetry. now apply skipn_all2.
Qed.

Lemma map_panel_pasted_row (y step x : Z) (row : list Image) :
  map (fun t => fst (fst t)) (pasted (row_calls y step x row)) = row.
Proof.
  rewrite pasted_row_calls, map_map. cbn [fst].
  apply map_fst_combine_panel_xs.
Qed.

Lemma section_text_steps (n : nat) :
  forall first, 1 <= first ->
    Forall (fun s => section_text s = Py.Ok (text_of s)) (steps first n).
Proof.
  induction n as [|n IH]; intros first H; cbn [steps]; constructor.
  - now apply section_text_ok.
  - apply IH. lia.
Qed.

Lemma texts_row2_calls (panels : list Image) :
  texts (row2_calls panels)
  = map text_of (steps (1 + Z.of_nat (List.length (row1_of panels)))
                   (List.length (row2_of panels))).
Proof.
  unfold row2_calls. rewrite texts_row_calls. unfold len. do 2 f_equal. lia.
Qed.

(** Over both rows, the panels pasted are the panel list and the
    labels drawn are those of the steps from 1 on. *)
Lemma compose_drawn (panels : list Image) :
  map (fun t => fst (fst t)) (pasted (row1_calls panels ++ row2_calls panels)) = panels
  /\ texts (row1_calls panels ++ row2_calls panels)
     = map text_of (steps 1 (List.length panels)).
Proof.
  split.
  - rewrite pasted_app, map_app. unfold row1_calls, row2_calls.
    rewrite !map_panel_pasted_row. apply rows_app.
  - rewrite texts_app, texts_row2_calls. unfold row1_calls.
    rewrite texts_row_calls, <- map_app, <- steps_app, <- length_app, rows_app.
    reflexivity.
Qed.

(** C7: a row of [k] panels gets [k - 1] arrows, one for each panel
    that has a right neighbour, drawn level from the right edge of the
    panel over the [ARROW_WIDTH] pixels to the neighbour's gutter; the
    canvas holds no other arrow, so none that leads from one row to
    the other. *)
Theorem arrows_within_rows (panels : list Image) :
  panels <> [] ->
  let row1 := row1_of panels in
  let row2 := row2_of panels in
  let x2 := row2_start_x (row_width row1) (row_width row2) in
  let cy1 := row1_y + PIPELINE_HEIGHT / 2 in
  let cy2 := row2_y + PIPELINE_HEIGHT / 2 in
  exists cv,
    compose panels = Py.Ok cv
    /\ calls cv = row1_calls panels ++ row2_calls panels
    /\ pasted (row1_calls panels)
       = map (fun px => (fst px, snd px, row1_y)) (combine row1 (panel_xs PADDING row1))
    /\ pasted (row2_calls panels)
       = map (fun px => (fst px, snd px, row2_y)) (combine row2 (panel_xs x2 row2))
    /\ arrows (row1_calls panels) = gap_arrows cy1 (combine row1 (panel_xs PADDING row1))
    /\ arrows (row2_calls panels) = gap_arrows cy2 (combine row2 (panel_xs x2 row2))
    /\ List.length (arrows (row1_calls panels)) = (List.length row1 - 1)%nat
    /\ List.length (arrows (row2_calls panels)) = (List.length row2 - 1)%nat
    /\ arrows (calls cv) = arrows (row1_calls panels) ++ arrows (row2_calls panels)
    /\ Forall (fun a => match a with
                        | (xa, ya, xb, yb) =>
                            xb = xa + ARROW_WIDTH /\ ya = yb /\ (ya = cy1 \/ ya = cy2)
                        end)
         (arrows (calls cv)).
Proof.
  intros Hp row1 row2 x2 cy1 cy2.
  eexists. split; [apply (compose_calls panels Hp)|]. cbn [calls].
  split; [reflexivity|].
  unfold row1_calls, row2_calls. fold row1 row2 x2.
  rewrite !pasted_row_calls, !arrows_app, !arrows_row_calls. fold cy1 cy2.
  rewrite !gap_arrows_count.
  repeat (split; [reflexivity|]).
  apply Forall_app. split.
  - eapply Forall_impl; [|apply gap_arrows_level].
    intros [[[xa ya] xb] yb] (-> & -> & ->). auto.
  - eapply Forall_impl; [|apply gap_arrows_level].
    intros [[[xa ya] xb] yb] (-> & -> & ->). auto.
Qed.

(** C9: the first [min 3 N] panels make row 1, which is never empty,
    and the others row 2; the rows put end to end are the panel list;
    the panels pasted on the canvas, in the order of the calls, are the
    panel list, each pasted once; and the labels drawn are those of the
    steps 1 to [N], in order. *)
Theorem rows_partition (panels : list Image) :
  panels <> [] ->
  let N := List.length panels in
  let row1 := row1_of panels in
  let row2 := row2_of panels in
  row1 = firstn (Nat.min 3 N) panels
  /\ row2 = skipn (Nat.min 3 N) panels
  /\ List.length row1 = Nat.min 3 N
  /\ List.length row2 = (N - Nat.min 3 N)%nat
  /\ row1 ++ row2 = panels
  /\ row1 <> []
  /\ exists cv,
      compose panels = Py.Ok cv
      /\ calls cv = row1_calls panels ++ row2_calls panels
      /\ map (fun t => fst (fst t)) (pasted (row1_calls panels)) = row1
      /\ map (fun t => fst (fst t)) (pasted (row2_calls panels)) = row2
      /\ map (fun t => fst (fst t)) (pasted (calls cv)) = panels
      /\ texts (row1_calls panels) = map text_of (steps 1 (List.length row1))
      /\ texts (row2_calls panels)
         = map text_of (steps (1 + Z.of_nat (List.length row1)) (List.length row2))
      /\ texts (calls cv) = map text_of (steps 1 N)
      /\ Forall (fun s => section_text s = Py.Ok (text_of s)) (steps 1 N).
Proof.
  intros Hp N row1 row2.
  assert (row1 = firstn (Nat.min 3 N) panels) as E1.
  { subst row1 N. rewrite firstn_min3. apply rows_split. }
  assert (row2 = skipn (Nat.min 3 N) panels) as E2.
  { subst row2 N. rewrite skipn_min3. apply rows_split. }
  assert (List.length row1 = Nat.min 3 N) as L1.
  { rewrite E1, length_firstn. subst N. lia. }
  assert (List.length row2 = (N - Nat.min 3 N)%nat) as L2.
  { rewrite E2, length_skipn. reflexivity. }
  repeat (split; [assumption|]).
  split; [apply rows_app|]. split; [now apply row1_nonempty|].
  eexists. split; [apply (compose_calls panels Hp)|]. cbn [calls].
  destruct (compose_drawn panels) as [Pp Tt].
  split; [reflexivity|].
  split; [unfold row1_calls; apply map_panel_pasted_row|].
  split; [unfold row2_calls; apply map_panel_pasted_row|].
  split; [exact Pp|].
  split; [unfold row1_calls; apply texts_row_calls|].
  split; [apply texts_row2_calls|].
  split; [exact Tt|].
  apply section_text_steps. lia.
Qed.
End DrawingClaims.

(** ** Labels *)

Section NumeralFacts.

Lemma digit_of_chr (m : Z) :
  0 <= m < 10 -> Py.digit (ascii_of_N (Z.to_N (48 + m))) = Some m.
Proof.
  intros H.
  assert (m = 0 \/ m = 1 \/ m = 2 \/ m = 3 \/ m = 4 \/ m = 5 \/ m = 6
          \/ m = 7 \/ m = 8 \/ m = 9) as D by lia.
  repeat (destruct D as [->|D]; [reflexivity|]). now subst.
Qed.

Lemma chr_not_zero (m : Z) :
  1 <= m < 10 -> ascii_of_N (Z.to_N (48 + m)) <> "0"%char.
Proof.
  intros H.
  assert (m = 1 \/ m = 2 \/ m = 3 \/ m = 4 \/ m = 5 \/ m = 6
          \/ m = 7 \/ m = 8 \/ m = 9) as D by lia.
  repeat (destruct D as [->|D]; [discriminate|]). subst. discriminate.
Qed.

(** Read back, the digits written for [n] in front of [acc] add [n]
    to what was read so far, shifted by their number. *)
Lemma numeral_value_digits_of_pos (fuel : nat) :
  forall n acc, 0 <= n < 2 ^ Z.of_nat fuel ->
    exists k, 0 <= k /\ forall a,
      numeral_value a (Py.digits_of_pos fuel n acc)
      = numeral_value (a * 10 ^ k + n) acc.
Proof.
  induction fuel as [|f IH]; intros n acc H.
  - exists 0. split; [lia|]. intros a. simpl in *. f_equal. lia.
  - cbn [Py.digits_of_pos]. rewrite Nat2Z.inj_succ, Z.pow_succ_r in H by lia.
    pose proof (Z.mod_pos_bound n 10 ltac:(lia)) as Hm.
    pose proof (Z.div_mod n 10 ltac:(lia)) as Hd.
    destruct (n <? 10) eqn:E.
    + apply Z.ltb_lt in E. exists 1. split; [lia|]. intros a.
      cbn [numeral_value]. rewrite digit_of_chr by lia.
      rewrite Z.mod_small by lia. f_equal. lia.
    + apply Z.ltb_ge in E.
      destruct (IH (n / 10) (String (ascii_of_N (Z.to_N (48 + n mod 10))) acc))
        as (k & Hk & Hv).
      { split; [apply Z.div_pos; lia|]. apply Z.div_lt_upper_bound; lia. }
      exists (k + 1). split; [lia|]. intros a. rewrite Hv.
      cbn [numeral_value]. rewrite digit_of_chr by lia.
      f_equal. rewrite Z.pow_add_r by lia. lia.
Qed.

Lemma digits_of_pos_head (fuel : nat) :
  forall n acc, 0 < n < 2 ^ Z.of_nat fuel ->
    exists c t, Py.digits_of_pos fuel n acc = String c t /\ c <> "0"%char.
Proof.
  induction fuel as [|f IH]; intros n acc H.
  - simpl in H. lia.
  - cbn [Py.digits_of_pos]. rewrite Nat2Z.inj_succ, Z.pow_succ_r in H by lia.
    pose proof (Z.mod_pos_bound n 10 ltac:(lia)) as Hm.
    destruct (n <? 10) eqn:E.
    + apply Z.ltb_lt in E. do 2 eexists. split; [reflexivity|].
      rewrite Z.mod_small by lia. apply chr_not_zero. lia.
    + apply Z.ltb_ge in E. apply IH. split.
      * apply Z.div_str_pos. lia.
      * apply Z.div_lt_upper_bound; lia.
Qed.

(** [str] of a positive integer is its decimal numeral. *)
Lemma str_is_numeral (n : Z) : 0 < n -> is_numeral_of (Py.str n) n.
Proof.
  intros H. unfold Py.str, is_numeral_of.
  assert ((n <? 0) = false) as -> by (apply Z.ltb_ge; lia).
  assert (0 < n < 2 ^ Z.of_nat (S (Z.to_nat (Z.log2 n)))) as B.
  { pose proof (Z.log2_nonneg n). pose proof (Z.log2_spec n H).
    rewrite Nat2Z.inj_succ, Z2Nat.id by lia. lia. }
  split.
  - destruct (numeral_value_digits_of_pos (S (Z.to_nat (Z.log2 n))) n EmptyString)
      as (k & _ & Hv); [lia|].
    rewrite Hv. reflexivity.
  - now apply digits_of_pos_head.
Qed.

Lemma nth_error_steps (n : nat) :
  forall first k, (k < n)%nat -> nth_error (steps first n) k = Some (first + Z.of_nat k).
Proof.
  induction n as [|n IH]; intros first k H; [lia|].
  destruct k as [|k]; cbn [steps nth_error].
  - f_equal. lia.
  - rewrite IH by lia. f_equal. lia.
Qed.

(** Below 27 the label is the letter at the step's place in the
    alphabet. *)
Lemma section_text_letter (s : Z) :
  1 <= s <= 26 ->
  exists c, String.get (Z.to_nat (s - 1)) alphabet = Some c
            /\ section_text s = Py.Ok (String c EmptyString).
Proof.
  intros H.
  assert (exists k : nat, (k < 26)%nat /\ s = Z.of_nat k + 1) as (k & Hk & ->).
  { exists (Z.to_nat (s - 1)). lia. }
  replace (Z.to_nat (Z.of_nat k + 1 - 1)) with k by lia.
  do 26 (destruct k as [|k]; [eexists; split; reflexivity|]). lia.
Qed.

End NumeralFacts.

Section LabelClaims.
Context {lib : Imaging}.

(** C6: the panel at step [s], counted from 1 through row 1 and on
    through row 2, is labelled with the letter at place [s] of the
    alphabet when [s <= 26] and with the decimal numeral of [s] when
    [s > 26]; five panels are labelled A, B, C in row 1 and D, E in
    row 2. *)
Theorem section_letter_by_step (panels : list Image) (s : Z) :
  1 <= s <= len panels ->
  exists cv t,
    compose panels = Py.Ok cv
    /\ section_text s = Py.Ok t
    /\ nth_error (texts (calls cv)) (Z.to_nat (s - 1)) = Some t
    /\ nth_error (map (fun c => fst (fst c)) (pasted (calls cv))) (Z.to_nat (s - 1))
       = nth_error panels (Z.to_nat (s - 1))
    /\ (s <= 26 ->
        exists c, String.get (Z.to_nat (s - 1)) alphabet = Some c
                  /\ t = String c EmptyString)
    /\ (26 < s -> is_numeral_of t s)
    /\ (List.length panels = 5%nat ->
        texts (row1_calls panels) = ["A"; "B"; "C"]%string
        /\ texts (row2_calls panels) = ["D"; "E"]%string
        /\ calls cv = row1_calls panels ++ row2_calls panels).
Proof.
  intros Hs. unfold len in Hs.
  assert (panels <> []) as Hp by (intros ->; simpl in Hs; lia).
  destruct (compose_drawn panels) as [Pp Tt].
  eexists. exists (text_of s).
  split; [apply (compose_calls panels Hp)|]. cbn [calls].
  split; [apply section_text_ok; lia|].
  split; [|split; [|split; [|split]]].
  - rewrite Tt. erewrite map_nth_error; [reflexivity|].
    rewrite nth_error_steps by lia. f_equal. lia.
  - now rewrite Pp.
  - intros H26. destruct (section_text_letter s ltac:(lia)) as (c & Hc & Et).
    exists c. split; [exact Hc|]. unfold text_of. now rewrite Et.
  - intros H26. unfold text_of, section_text.
    assert ((s <=? 26) = false) as -> by (apply Z.leb_gt; lia).
    apply str_is_numeral. lia.
  - intros H5. split; [|split; [|reflexivity]].
    + unfold row1_calls. rewrite texts_row_calls.
      destruct panels as [|a [|b [|c [|d [|e [|f l]]]]]]; try discriminate.
      reflexivity.
    + unfold row2_calls. rewrite texts_row_calls.
      destruct panels as [|a [|b [|c [|d [|e [|f l]]]]]]; try discriminate.
      reflexivity.
Qed.
End LabelClaims.

Lemma section_letter_by_step_witness :
  exists cv,
    compose (sample_panels [200; 300; 100; 150; 50]) = Py.Ok cv
    /\ section_text 4 = Py.Ok "D"%string
    /\ nth_error (texts (calls cv)) 3 = Some "D"%string.
Proof.
  destruct (section_letter_by_step (sample_panels [200; 300; 100; 150; 50]) 4)
    as (cv & t & E & Et & Hn & _); [vm_compute; split; discriminate|].
  exists cv. split; [exact E|]. split; [reflexivity|].
  change (section_text 4) with (@Py.Ok string "D"%string) in Et.
  inversion Et; subst t. exact Hn.
Defined.

Example section_text_26 : section_text 26 = Py.Ok "Z"%string.
Proof. reflexivity. Qed.
Example section_text_27 : section_text 27 = Py.Ok "27"%string.
Proof. reflexivity. Qed.

Lemma arrows_within_rows_witness :
  exists cv,
    compose (sample_panels [200; 300; 100; 150; 50]) = Py.Ok cv
    /\ arrows (calls cv)
       = [(230, 182, 240, 182); (558, 182, 568, 182); (394, 542, 404, 542)].
Proof.
  destruct (arrows_within_rows (sample_panels [200; 300; 100; 150; 50])
              ltac:(discriminate))
    as (cv & E & _ & _ & _ & Ha1 & Ha2 & _ & _ & Ha & _).
  exists cv. split; [exact E|]. rewrite Ha, Ha1, Ha2. reflexivity.
Defined.

Lemma rows_partition_witness :
  row1_of (sample_panels [200; 300; 100; 150; 50]) = sample_panels [200; 300; 100]
  /\ row2_of (sample_panels [200; 300; 100; 150; 50]) = sample_panels [150; 50]
  /\ exists cv,
      compose (sample_panels [200; 300; 100; 150; 50]) = Py.Ok cv
      /\ map (fun t => fst (fst t)) (pasted (calls cv))
         = sample_panels [200; 300; 100; 150; 50]
      /\ texts (calls cv) = ["A"; "B"; "C"; "D"; "E"]%string.
Proof.
  destruct (rows_partition (sample_panels [200; 300; 100; 150; 50]) ltac:(discriminate))
    as (E1 & E2 & _ & _ & _ & _ & cv & E & _ & _ & _ & Pp & _ & _ & Tt & _).
  split; [exact E1|]. split; [exact E2|].
  exists cv. split; [exact E|]. split; [exact Pp|]. rewrite Tt. reflexivity.
Defined.

(** ** The outcomes of a run *)

Section RunClaims.
Context {lib : Imaging}.

(** Either every file loads and resizes, and the loop ends with one
    panel more per file, or some file does not, and the loop raises. *)
Lemma prepare_panels_cases (paths : list source_file) :
  forall acc,
    (Forall preparable paths
     /\ exists ps, prepare_panels paths acc = Py.Ok (acc ++ ps)
                   /\ List.length ps = List.length paths)
    \/ (~ Forall preparable paths
        /\ exists e, prepare_panels paths acc = Py.Raise e).
Proof.
  induction paths as [|f paths IH]; intros acc.
  - left. split; [constructor|]. exists []. now rewrite app_nil_r.
  - cbn [prepare_panels].
    destruct (load_and_prepare f) as [img|e] eqn:El; cbn [Py.bind].
    + destruct (resize_to_height img PIPELINE_HEIGHT) as [p|e] eqn:Er; cbn [Py.bind].
      * destruct (IH (acc ++ [p])) as [(Hf & ps & E & L)|(Hf & e & E)].
        -- left. split; [constructor; [now exists img, p|exact Hf]|].
           exists (p :: ps). rewrite E, <- app_assoc. split; [reflexivity|].
           simpl. now rewrite L.
        -- right. split; [|now exists e].
           intros H. apply Hf. now inversion H.
      * right. split; [|now exists e].
        intros H. inversion H as [|? ? (img' & p' & El' & Er') _]; subst.
        congruence.
    + right. split; [|now exists e].
      intros H. inversion H as [|? ? (img' & p' & El' & Er') _]; subst.
      congruence.
Qed.

Lemma is_empty_nil {A : Type} (l : list A) : is_empty l = true <-> l = [].
Proof. destruct l; simpl; split; congruence. Qed.

Lemma is_empty_discover (paths : list source_file) :
  is_empty (discover_images paths) = is_empty paths.
Proof.
  destruct paths as [|f paths]; [reflexivity|].
  destruct (discover_images (f :: paths)) eqn:E; [|reflexivity].
  apply (proj1 (discover_images_nil _)) in E. discriminate E.
Qed.

Lemma preparable_discover (paths : list source_file) :
  Forall preparable (discover_images paths) <-> Forall preparable paths.
Proof.
  split; apply Permutation_Forall;
    [apply discover_images_perm|apply Permutation_sym, discover_images_perm].
Qed.

(** C5, as amended: [main] returns 1, having written nothing,
    exactly when the assets directory is missing or no file matches;
    with the directory there, a file matching and every matching file
    loading and resizing, it writes the output once and returns 0; and
    when a matching file fails to load or resize, the error leaves
    [main], nothing is written and the process ends with status 1. *)
Theorem main_outcomes (w : world) :
  (returned (main w) = Py.Ok 1 <-> assets_exists w = false \/ globbed w = [])
  /\ (returned (main w) = Py.Ok 1 -> saved (main w) = [])
  /\ (assets_exists w = true -> globbed w <> [] -> Forall preparable (globbed w) ->
      returned (main w) = Py.Ok 0 /\ exit_status (main w) = 0
      /\ exists panels cv,
          prepare_panels (discover_images (globbed w)) [] = Py.Ok panels
          /\ compose panels = Py.Ok cv
          /\ saved (main w) = [upscale cv 2])
  /\ (assets_exists w = true -> globbed w <> [] -> ~ Forall preparable (globbed w) ->
      exists e, returned (main w) = Py.Raise e
                /\ saved (main w) = [] /\ exit_status (main w) = 1).
Proof.
  unfold main, exit_status.
  destruct (assets_exists w) eqn:Ea; cbn [negb].
  2:{ cbn [returned saved]. split; [split; auto|]. split; [reflexivity|].
      split; intros H; discriminate H. }
  rewrite is_empty_discover.
  destruct (globbed w) as [|f paths] eqn:Eg; cbn [is_empty].
  { cbn [returned saved]. split; [split; auto|]. split; [reflexivity|].
    split; intros _ H; now contradiction H. }
  rewrite <- Eg.
  destruct (prepare_panels_cases (discover_images (globbed w)) [])
    as [(Hf & ps & E & L)|(Hf & e & E)]; rewrite E; cbn [Py.bind app].
  - assert (ps <> []) as Hp.
    { intros ->. simpl in L. symmetry in L. apply length_zero_iff_nil in L.
      apply (proj1 (discover_images_nil _)) in L. rewrite Eg in L. discriminate L. }
    rewrite (compose_calls ps Hp). cbn [returned saved].
    split; [split; [discriminate|intros [H|H]; [discriminate|rewrite Eg in H; discriminate]]|].
    split; [discriminate|]. split.
    + intros _ _ _. split; [reflexivity|]. split; [reflexivity|].
      do 2 eexists. split; [reflexivity|]. split; [apply (compose_calls ps Hp)|reflexivity].
    + intros _ _ Hn. exfalso. apply Hn. now apply preparable_discover.
  - cbn [returned saved].
    split; [split; [discriminate|intros [H|H]; [discriminate|rewrite Eg in H; discriminate]]|].
    split; [discriminate|]. split.
    + intros _ _ Hall. exfalso. apply Hf. now apply preparable_discover.
    + intros _ _ _. exists e. auto.
Qed.
End RunClaims.

Lemma main_outcomes_witness :
  let w := {| assets_exists := true;
              globbed := [sample_file "GA_image1" 1 400 680;
                          sample_file "GA_image" 2 340 340] |} in
  returned (main w) = Py.Ok 0
  /\ exit_status (main w) = 0
  /\ exists cv, saved (main w) = [upscale cv 2].
Proof.
  intros w. destruct (main_outcomes w) as (_ & _ & H & _).
  destruct H as (R & X & ps & cv & _ & _ & S).
  - reflexivity.
  - discriminate.
  - repeat constructor; do 2 eexists; split; reflexivity.
  - split; [exact R|]. split; [exact X|]. exists cv. exact S.
Defined.

(** C5 as written fails: with the directory there and one matching
    file that cannot be decoded, the run ends with status 1 and nothing
    written, although the directory exists and a file matches. *)
Lemma main_corrupt_file :
  let w := {| assets_exists := true; globbed := [corrupt_file "GA_image"] |} in
  returned (main w) = Py.Raise Py.OSError
  /\ exit_status (main w) = 1
  /\ saved (main w) = []
  /\ ~ (assets_exists w = false \/ globbed w = []).
Proof.
  cbv zeta. repeat split. intros [H|H]; discriminate H.
Qed.

(** The same happens with a sound image so flat that its width at the
    pipeline height comes out as 0. *)
Example main_flat_image :
  let w := {| assets_exists := true; globbed := [sample_file "GA_image" 1 1 1000] |} in
  returned (main w) = Py.Raise Py.ValueError /\ saved (main w) = [].
Proof. split; reflexivity. Qed.

(** ** int and str *)

Section IntStrFacts.

Lemma rev_append_twice (s : string) :
  forall a b, Py.rev_append (Py.rev_append s a) b = Py.rev_append a (s ++ b)%string.
Proof.
  induction s as [|c s IH]; intros a b; [reflexivity|].
  cbn [Py.rev_append]. rewrite IH. reflexivity.
Qed.

Lemma append_empty_r (s : string) : (s ++ EmptyString)%string = s.
Proof. induction s as [|c s IH]; simpl; [|rewrite IH]; reflexivity. Qed.

Lemma rev_rev (s : string) : Py.rev (Py.rev s) = s.
Proof. unfold Py.rev. rewrite rev_append_twice. apply append_empty_r. Qed.

Lemma all_chars_rev_append (P : ascii -> bool) (s : string) :
  forall acc, all_chars P s = true -> all_chars P acc = true ->
    all_chars P (Py.rev_append s acc) = true.
Proof.
  induction s as [|c s IH]; intros acc Hs Ha; [exact Ha|].
  cbn [all_chars] in Hs. apply andb_true_iff in Hs as [Hc Hs].
  cbn [Py.rev_append]. apply IH; [exact Hs|].
  cbn [all_chars]. now rewrite Hc, Ha.
Qed.

Lemma lstrip_no_space (s : string) :
  all_chars (fun c => negb (Py.isspace c)) s = true -> Py.lstrip s = s.
Proof.
  destruct s as [|c s]; [reflexivity|]. cbn [all_chars Py.lstrip].
  intros H. apply andb_true_iff in H as [Hc _].
  now destruct (Py.isspace c).
Qed.

(** A string without white space is left as it is. *)
Lemma strip_no_space (s : string) :
  all_chars (fun c => negb (Py.isspace c)) s = true -> Py.strip s = s.
Proof.
  intros H. unfold Py.strip. rewrite (lstrip_no_space s H).
  rewrite lstrip_no_space; [apply rev_rev|].
  unfold Py.rev. now apply all_chars_rev_append.
Qed.

Lemma all_chars_impl (P Q : ascii -> bool) (s : string) :
  (forall c, P c = true -> Q c = true) ->
  all_chars P s = true -> all_chars Q s = true.
Proof.
  intros HPQ. induction s as [|c s IH]; [reflexivity|].
  cbn [all_chars]. rewrite !andb_true_iff. intros [Hc Hs]. auto.
Qed.

(** What sets the characters of a numeral apart. *)
Lemma numeral_char_facts (c : ascii) :
  numeral_char c = true ->
  Py.isspace c = false /\ c <> "G"%char /\ c <> "+"%char /\ c <> "_"%char.
Proof.
  destruct c as [b0 b1 b2 b3 b4 b5 b6 b7].
  destruct b0, b1, b2, b3, b4, b5, b6, b7; intros H;
    try discriminate H; repeat split; discriminate.
Qed.

Lemma digit_not_minus (c : ascii) (d : Z) : Py.digit c = Some d -> c <> "-"%char.
Proof. intros H ->. discriminate H. Qed.

Lemma numeral_value_chars (s : string) :
  forall a v, numeral_value a s = Some v -> all_chars numeral_char s = true.
Proof.
  induction s as [|c s IH]; intros a v H; [reflexivity|].
  cbn [numeral_value] in H. cbn [all_chars]. unfold numeral_char at 1.
  destruct (Py.digit c) as [d|]; [|discriminate]. simpl. eauto.
Qed.

(** On a string of digits, [digits] reads the value. *)
Lemma digits_numeral_value (s : string) :
  forall a b v, (s <> EmptyString \/ b = true) ->
    numeral_value a s = Some v -> Py.digits a b s = Some v.
Proof.
  induction s as [|c s IH]; intros a b v Hb H.
  - destruct Hb as [Hb| ->]; [contradiction|exact H].
  - cbn [numeral_value] in H. cbn [Py.digits].
    destruct (Py.digit c) as [d|] eqn:Ed; [|discriminate].
    destruct (Ascii.eqb_spec c "_"%char) as [->|_]; [discriminate Ed|].
    apply IH; auto.
Qed.

Lemma int_of_digits (s : string) (v : Z) :
  s <> EmptyString -> numeral_value 0 s = Some v -> Py.int s = Some v.
Proof.
  intros Hs H. unfold Py.int. rewrite strip_no_space.
  2:{ eapply all_chars_impl; [|exact (numeral_value_chars s 0 v H)].
      intros c Hc. now destruct (numeral_char_facts c Hc) as (-> & _). }
  pose proof (digits_numeral_value s 0 false v (or_introl Hs) H) as D.
  destruct s as [|c s]; [contradiction|].
  cbn [numeral_value] in H. destruct (Py.digit c) as [d|] eqn:Ed; [|discriminate].
  assert (c <> "+"%char) as Hp by (intros ->; discriminate Ed).
  assert (c <> "-"%char) as Hm by (intros ->; discriminate Ed).
  destruct c as [b0 b1 b2 b3 b4 b5 b6 b7].
  destruct b0, b1, b2, b3, b4, b5, b6, b7; try discriminate Ed;
    try exact D.
Qed.

Lemma int_of_minus_digits (s : string) (v : Z) :
  s <> EmptyString -> numeral_value 0 s = Some v ->
  Py.int (String "-" s) = Some (- v).
Proof.
  intros Hs H. unfold Py.int. rewrite strip_no_space.
  2:{ cbn [all_chars]. apply andb_true_iff. split; [reflexivity|].
      eapply all_chars_impl; [|exact (numeral_value_chars s 0 v H)].
      intros c Hc. now destruct (numeral_char_facts c Hc) as (-> & _). }
  rewrite (digits_numeral_value s 0 false v (or_introl Hs) H). reflexivity.
Qed.

Lemma str_positive (n : Z) :
  0 < n ->
  Py.str n <> EmptyString /\ numeral_value 0 (Py.str n) = Some n.
Proof.
  intros H. destruct (str_is_numeral n H) as (Hv & c & t & E & _).
  split; [rewrite E; discriminate|exact Hv].
Qed.

Lemma str_negative (n : Z) : n < 0 -> Py.str n = String "-" (Py.str (- n)).
Proof.
  intros H. unfold Py.str.
  assert ((n <? 0) = true) as -> by (apply Z.ltb_lt; lia).
  assert ((- n <? 0) = false) as -> by (apply Z.ltb_ge; lia).
  reflexivity.
Qed.

(** Reading back what [str] wrote gives the integer. *)
Lemma int_str (n : Z) : Py.int (Py.str n) = Some n.
Proof.
  destruct (Z.lt_trichotomy n 0) as [H|[->|H]].
  - rewrite (str_negative n H).
    destruct (str_positive (- n)) as [Hne Hv]; [lia|].
    rewrite (int_of_minus_digits _ _ Hne Hv). f_equal. lia.
  - reflexivity.
  - destruct (str_positive n H) as [Hne Hv]. now apply int_of_digits.
Qed.

Lemma str_chars (n : Z) : all_chars numeral_char (Py.str n) = true.
Proof.
  destruct (Z.lt_trichotomy n 0) as [H|[->|H]].
  - rewrite (str_negative n H). cbn [all_chars]. apply andb_true_iff.
    split; [reflexivity|].
    destruct (str_positive (- n)) as [_ Hv]; [lia|].
    exact (numeral_value_chars _ _ _ Hv).
  - reflexivity.
  - destruct (str_positive n H) as [_ Hv]. exact (numeral_value_chars _ _ _ Hv).
Qed.

Lemma str_not_empty (n : Z) : Py.str n <> EmptyString.
Proof.
  destruct (Z.lt_trichotomy n 0) as [H|[->|H]].
  - rewrite (str_negative n H). discriminate.
  - discriminate.
  - now destruct (str_positive n H).
Qed.

End IntStrFacts.

(** ** The order of discovery *)

Section DiscoveryOrder.
Context {lib : Imaging}.

Lemma prefix_other_head (c : ascii) (s : string) :
  c <> "G"%char -> prefix "GA_image" (String c s) = false.
Proof.
  intros H. cbn [prefix]. destruct (ascii_dec "G" c) as [E|_]; [|reflexivity].
  now subst c.
Qed.

(** Nothing is taken out of a string that has no [G] in it. *)
Lemma remove_no_G (s : string) :
  all_chars (fun c => negb (Ascii.eqb c "G")) s = true ->
  Py.remove_from "GA_image" O s = s.
Proof.
  induction s as [|c s IH]; [reflexivity|]. cbn [all_chars].
  intros H. apply andb_true_iff in H as [Hc Hs].
  cbn [Py.remove_from]. rewrite prefix_other_head.
  - now rewrite IH.
  - intros ->. discriminate Hc.
Qed.

Lemma remove_numbered (n : Z) : Py.remove "GA_image" (numbered n) = Py.str n.
Proof.
  unfold numbered, Py.remove.
  assert (forall t, Py.remove_from "GA_image" O ("GA_image" ++ t)%string
                    = Py.remove_from "GA_image" O t) as ->.
  { intros t. cbn [append]. cbn [Py.remove_from].
    replace (prefix "GA_image" (String "G" (String "A" (String "_" (String "i"
               (String "m" (String "a" (String "g" (String "e" t)))))))))
      with true by (cbn; now destruct t).
    reflexivity. }
  apply remove_no_G. eapply all_chars_impl; [|apply str_chars].
  intros c Hc. destruct (numeral_char_facts c Hc) as (_ & HG & _).
  destruct (Ascii.eqb_spec c "G"%char); [contradiction|reflexivity].
Qed.

Lemma sort_key_numbered_stem (n : Z) : sort_key (numbered n) = (n, numbered n).
Proof.
  unfold sort_key. rewrite remove_numbered, int_str.
  pose proof (str_not_empty n) as Hne.
  assert (String.eqb (numbered n) "GA_image" = false) as ->.
  { unfold numbered. destruct (Py.str n); [contradiction|reflexivity]. }
  assert (String.eqb (Py.str n) EmptyString = false) as ->.
  { destruct (Py.str n); [contradiction|reflexivity]. }
  reflexivity.
Qed.

(** X2: the file [GA_image<n>.png] is given the index [n], whatever
    integer [n] is, so that two numbers never share a key. *)
Theorem sort_key_of_number (n : Z) :
  sort_key (numbered n) = (n, numbered n)
  /\ forall m, sort_key (numbered m) = sort_key (numbered n) -> m = n.
Proof.
  split; [apply sort_key_numbered_stem|].
  intros m E. rewrite !sort_key_numbered_stem in E. congruence.
Qed.

(** X1: discovery returns the files the glob gave, each of them once,
    in ascending order of their keys. *)
Theorem discover_images_sorted_permutation (paths : list source_file) :
  Permutation (discover_images paths) paths
  /\ StronglySorted (fun p q => tuple_le (sort_key (stem p)) (sort_key (stem q)))
       (discover_images paths)
  /\ List.length (discover_images paths) = List.length paths.
Proof.
  split; [apply discover_images_perm|]. split; [apply discover_images_sorted|].
  apply Permutation_length, discover_images_perm.
Qed.

Lemma sorted_after {A : Type} (R : A -> A -> Prop) (l1 : list A) :
  forall y l3, StronglySorted R (l1 ++ y :: l3) -> Forall (R y) l3.
Proof.
  induction l1 as [|a l1 IH]; intros y l3 H; inversion H; subst; auto.
Qed.

(** In a sorted list, an element with a smaller key stands before one
    with a larger key. *)
Lemma sorted_precedes {A : Type} (key : A -> Z * string) (l : list A) (x y : A) :
  StronglySorted (key_le key) l -> In x l -> In y l ->
  Py.tuple_lt (key x) (key y) = true -> precedes x y l.
Proof.
  intros Hs Hx Hy Hlt.
  destruct (in_split y l Hy) as (l1 & l3 & ->).
  apply in_app_or in Hx as [Hx|[Hx|Hx]].
  - destruct (in_split x l1 Hx) as (a & b & ->).
    exists a, b, l3. now rewrite <- app_assoc.
  - subst y. now rewrite tuple_lt_irrefl in Hlt.
  - apply sorted_after in Hs. rewrite Forall_forall in Hs.
    specialize (Hs x Hx). unfold key_le, tuple_le in Hs. congruence.
Qed.

Lemma discover_images_precedes (paths : list source_file) (f g : source_file) :
  In f paths -> In g paths ->
  Py.tuple_lt (sort_key (stem f)) (sort_key (stem g)) = true ->
  precedes f g (discover_images paths).
Proof.
  intros Hf Hg Hlt.
  apply (sorted_precedes (fun p => sort_key (stem p))); auto.
  - apply (sort_sorted (fun p => sort_key (stem p))).
  - apply (Permutation_in f (Permutation_sym (discover_images_perm paths)) Hf).
  - apply (Permutation_in g (Permutation_sym (discover_images_perm paths)) Hg).
Qed.

(** X3: numbered files are discovered in the order of their numbers,
    not of their names: [GA_image<a>.png] comes before
    [GA_image<b>.png] whenever [a < b]. *)
Theorem discover_images_by_number (paths : list source_file) (f g : source_file)
  (a b : Z) :
  In f paths -> In g paths ->
  stem f = numbered a -> stem g = numbered b -> a < b ->
  precedes f g (discover_images paths).
Proof.
  intros Hf Hg Ea Eb Hab. apply discover_images_precedes; auto.
  rewrite Ea, Eb, !sort_key_numbered_stem. unfold Py.tuple_lt. cbn [fst snd].
  apply orb_true_iff. left. now apply Z.ltb_lt.
Qed.

(** X4: a file whose suffix is no integer comes after every file with
    an index below 999. *)
Theorem discover_images_unnumbered_later (paths : list source_file)
  (f g : source_file) :
  In f paths -> In g paths ->
  fst (sort_key (stem f)) < 999 ->
  Py.remove "GA_image" (stem g) <> EmptyString ->
  Py.int (Py.remove "GA_image" (stem g)) = None ->
  precedes f g (discover_images paths).
Proof.
  intros Hf Hg Hlt Hne Hint. apply discover_images_precedes; auto.
  assert (sort_key (stem g) = (999, stem g)) as ->.
  { unfold sort_key. rewrite Hint.
    destruct (String.eqb_spec (stem g) "GA_image") as [E|_].
    - exfalso. apply Hne. now rewrite E.
    - destruct (String.eqb_spec (Py.remove "GA_image" (stem g)) EmptyString);
        [contradiction|reflexivity]. }
  unfold Py.tuple_lt. cbn [fst snd]. apply orb_true_iff. left. now apply Z.ltb_lt.
Qed.

(** X5: the bare [GA_image.png] comes before every numbered file with
    a number from 0 on. *)
Theorem discover_images_bare_first (paths : list source_file) (f g : source_file)
  (n : Z) :
  In f paths -> In g paths ->
  stem f = "GA_image"%string -> stem g = numbered n -> 0 <= n ->
  precedes f g (discover_images paths).
Proof.
  intros Hf Hg Ef Eg Hn. apply discover_images_precedes; auto.
  rewrite Ef, Eg, sort_key_numbered_stem.
  change (sort_key "GA_image") with (0, "GA_image"%string).
  unfold Py.tuple_lt. cbn [fst snd]. apply orb_true_iff.
  destruct (Z.eq_dec n 0) as [->|Hn0]; [right|left; apply Z.ltb_lt; lia].
  reflexivity.
Qed.
End DiscoveryOrder.

Lemma discover_images_by_number_witness :
  let f2 := sample_file "GA_image2" 2 100 340 in
  let f10 := sample_file "GA_image10" 10 100 340 in
  precedes f2 f10 (discover_images [f10; f2]).
Proof.
  intros f2 f10.
  apply (discover_images_by_number [f10; f2] f2 f10 2 10).
  - right. left. reflexivity.
  - left. reflexivity.
  - reflexivity.
  - reflexivity.
  - lia.
Defined.

Lemma discover_images_unnumbered_later_witness :
  let f2 := sample_file "GA_image2" 2 100 340 in
  let fo := sample_file "GA_image_old" 7 100 340 in
  precedes f2 fo (discover_images [fo; f2]).
Proof.
  intros f2 fo.
  apply (discover_images_unnumbered_later [fo; f2] f2 fo).
  - right. left. reflexivity.
  - left. reflexivity.
  - vm_compute. reflexivity.
  - discriminate.
  - reflexivity.
Defined.

Lemma discover_images_bare_first_witness :
  let f0 := sample_file "GA_image" 0 100 340 in
  let f1 := sample_file "GA_image1" 1 100 340 in
  precedes f0 f1 (discover_images [f1; f0]).
Proof.
  intros f0 f1.
  apply (discover_images_bare_first [f1; f0] f0 f1 1).
  - right. left. reflexivity.
  - left. reflexivity.
  - reflexivity.
  - reflexivity.
  - lia.
Defined.

(** ** More on labels *)

Section LabelFacts.
Context {lib : Imaging}.

Lemma chr_value (n : Z) :
  0 <= n < 256 -> Py.chr n = Py.Ok (ascii_of_N (Z.to_N n)).
Proof.
  intros H. unfold Py.chr.
  assert ((0 <=? n) && (n <? 256) = true) as ->; [|reflexivity].
  apply andb_true_iff. split; [apply Z.leb_le|apply Z.ltb_lt]; lia.
Qed.

Lemma section_text_low (s : Z) :
  -64 <= s <= 26 ->
  section_text s = Py.Ok (String (ascii_of_N (Z.to_N (64 + s))) EmptyString).
Proof.
  intros H. unfold section_text.
  assert ((s <=? 26) = true) as -> by (apply Z.leb_le; lia).
  change (Py.ord "A") with 65. rewrite chr_value by lia. cbn [Py.bind].
  do 3 f_equal. lia.
Qed.

Lemma section_text_high (s : Z) : 26 < s -> section_text s = Py.Ok (Py.str s).
Proof.
  intros H. unfold section_text.
  now assert ((s <=? 26) = false) as -> by (apply Z.leb_gt; lia).
Qed.

Lemma letter_is_no_digit (s : Z) :
  1 <= s <= 26 -> Py.digit (ascii_of_N (Z.to_N (64 + s))) = None.
Proof.
  intros H. unfold Py.digit. rewrite N_ascii_embedding by lia.
  destruct ((48 <=? Z.to_N (64 + s))%N && (Z.to_N (64 + s) <=? 57)%N) eqn:E;
    [|reflexivity].
  apply andb_true_iff in E as [_ E]. apply N.leb_le in E. lia.
Qed.

Lemma ok_inj {A : Type} (x y : A) : Py.Ok x = Py.Ok y -> x = y.
Proof. congruence. Qed.

Lemma single_inj (c d : ascii) : String c EmptyString = String d EmptyString -> c = d.
Proof. congruence. Qed.

(** X6: no two steps from 1 on get the same label. *)
Theorem section_text_injective (a b : Z) :
  1 <= a -> 1 <= b -> section_text a = section_text b -> a = b.
Proof.
  intros Ha Hb E.
  destruct (Z_le_gt_dec a 26) as [La|La], (Z_le_gt_dec b 26) as [Lb|Lb].
  - rewrite !section_text_low in E by lia. apply ok_inj, single_inj in E.
    apply (f_equal N_of_ascii) in E. rewrite !N_ascii_embedding in E by lia. lia.
  - rewrite section_text_low, section_text_high in E by lia. apply ok_inj in E.
    destruct (str_positive b ltac:(lia)) as [_ Hv]. rewrite <- E in Hv.
    cbn [numeral_value] in Hv. rewrite letter_is_no_digit in Hv by lia. discriminate.
  - rewrite section_text_high, section_text_low in E by lia. apply ok_inj in E.
    destruct (str_positive a ltac:(lia)) as [_ Hv]. rewrite E in Hv.
    cbn [numeral_value] in Hv. rewrite letter_is_no_digit in Hv by lia. discriminate.
  - rewrite !section_text_high in E by lia. apply ok_inj in E.
    destruct (str_positive a ltac:(lia)) as [_ Hva].
    destruct (str_positive b ltac:(lia)) as [_ Hvb]. congruence.
Qed.


End LabelFacts.

Lemma section_text_injective_witness : 3 = 3.
Proof.
  apply (section_text_injective 3 3); [lia|lia|reflexivity].
Defined.

Example section_text_3_30 : section_text 3 <> section_text 30.
Proof. discriminate. Qed.


(** ** The panels of a run *)

Section PanelFacts.
Context {lib : Imaging}.

Lemma resize_to_height_mode (img p : Image) (t : Z) :
  resize_to_height img t = Py.Ok p -> img_mode p = img_mode img.
Proof.
  unfold resize_to_height, resize.
  destruct (height img =? t); [congruence|].
  destruct (height img =? 0); [discriminate|].
  destruct ((_ <? 1) || (t <? 1)); [discriminate|].
  intros E. apply ok_inj in E. now subst p.
Qed.

Lemma resize_to_height_width (img p : Image) (t : Z) :
  resize_to_height img t = Py.Ok p -> 1 <= width img -> 1 <= width p.
Proof.
  unfold resize_to_height, resize.
  destruct (height img =? t); [congruence|].
  destruct (height img =? 0); [discriminate|].
  destruct (Z.quot (width img * t) (height img) <? 1) eqn:E1; [discriminate|].
  destruct (t <? 1); [discriminate|]. cbn [orb].
  intros E _. apply ok_inj in E. subst p. cbn [width].
  now apply Z.ltb_ge in E1.
Qed.

(** What a prepared panel keeps of its file. *)
Lemma prepared_from_facts (f : source_file) (p : Image) :
  prepared_from f p ->
  height p = PIPELINE_HEIGHT /\ img_mode p = RGBA
  /\ (forall w h px, decoded f = Some (w, h, px) -> 1 <= w -> 1 <= width p).
Proof.
  intros (img & El & Er). unfold load_and_prepare in El.
  destruct (decoded f) as [[[w h] px]|]; [|discriminate].
  apply ok_inj in El. subst img.
  split; [exact (resize_to_height_height _ _ _ Er)|].
  split; [exact (resize_to_height_mode _ _ _ Er)|].
  intros w' h' px' E Hw. injection E as <- <- <-.
  exact (resize_to_height_width _ _ _ Er Hw).
Qed.

Lemma prepare_panels_acc (paths : list source_file) :
  forall acc out,
    prepare_panels paths acc = Py.Ok out ->
    exists ps, out = acc ++ ps /\ Forall2 prepared_from paths ps.
Proof.
  induction paths as [|f paths IH]; intros acc out E.
  - apply ok_inj in E. subst out. exists []. now rewrite app_nil_r.
  - cbn [prepare_panels] in E.
    destruct (load_and_prepare f) as [img|e] eqn:El; [|discriminate].
    cbn [Py.bind] in E.
    destruct (resize_to_height img PIPELINE_HEIGHT) as [p|e] eqn:Er; [|discriminate].
    cbn [Py.bind] in E. destruct (IH _ _ E) as (ps & -> & HF).
    exists (p :: ps). rewrite <- app_assoc. split; [reflexivity|].
    constructor; [now exists img|exact HF].
Qed.

Lemma prepared_panels_uniform (paths : list source_file) (ps : list Image) :
  Forall2 prepared_from paths ps ->
  Forall (fun p => height p = PIPELINE_HEIGHT /\ img_mode p = RGBA) ps.
Proof.
  induction 1 as [|f p paths ps Hp _ IH]; constructor; [|exact IH].
  now destruct (prepared_from_facts f p Hp) as (? & ? & _).
Qed.

Lemma prepared_panels_wide (paths : list source_file) (ps : list Image) :
  Forall2 prepared_from paths ps ->
  Forall (fun f => forall w h px, decoded f = Some (w, h, px) -> 1 <= w) paths ->
  Forall (fun p => 1 <= width p) ps.
Proof.
  induction 1 as [|f p paths ps Hp _ IH]; intros Hw; constructor.
  - inversion Hw as [|? ? Hf _]; subst.
    destruct (decoded f) as [[[w h] px]|] eqn:Ed.
    + destruct (prepared_from_facts f p Hp) as (_ & _ & H).
      apply (H w h px Ed). eauto.
    + destruct Hp as (img & El & _). unfold load_and_prepare in El.
      rewrite Ed in El. discriminate.
  - apply IH. now inversion Hw.
Qed.

Lemma prepare_panels_Forall2 (paths : list source_file) (panels : list Image) :
  prepare_panels paths [] = Py.Ok panels -> Forall2 prepared_from paths panels.
Proof.
  intros E. now destruct (prepare_panels_acc _ _ _ E) as (ps & -> & HF).
Qed.

(** X9: when the loop over the files ends well, there is one panel
    per file, in the order of the files, each made of its file; every
    panel has the pipeline height and an alpha band, and is at least
    one pixel wide when the decoded images are. *)
Theorem prepare_panels_each (paths : list source_file) (panels : list Image) :
  prepare_panels paths [] = Py.Ok panels ->
  Forall2 prepared_from paths panels
  /\ List.length panels = List.length paths
  /\ Forall (fun p => height p = PIPELINE_HEIGHT /\ img_mode p = RGBA) panels
  /\ (Forall (fun f => forall w h px, decoded f = Some (w, h, px) -> 1 <= w) paths ->
      Forall (fun p => 1 <= width p) panels).
Proof.
  intros E. destruct (prepare_panels_acc _ _ _ E) as (ps & -> & HF). cbn [app].
  split; [exact HF|]. split; [symmetry; exact (Forall2_length HF)|].
  split; [exact (prepared_panels_uniform _ _ HF)|].
  exact (prepared_panels_wide _ _ HF).
Qed.

(** X10: the loop stops at the first file that fails to load or to
    resize, with the error of that file, whatever comes after it. *)
Theorem prepare_panels_first_failure (good rest : list source_file)
  (bad : source_file) (e : Py.exn) (acc : list Image) :
  Forall preparable good ->
  (img <- load_and_prepare bad ;; resize_to_height img PIPELINE_HEIGHT) = Py.Raise e ->
  prepare_panels (good ++ bad :: rest) acc = Py.Raise e.
Proof.
  intros Hg Hb. revert acc. induction Hg as [|f good (img & p & El & Er) _ IH];
    intros acc; cbn [app prepare_panels].
  - destruct (load_and_prepare bad) as [img|e'] eqn:El; cbn [Py.bind] in *.
    + now rewrite Hb.
    + congruence.
  - rewrite El. cbn [Py.bind]. rewrite Er. cbn [Py.bind]. apply IH.
Qed.
End PanelFacts.

Lemma prepare_panels_each_witness :
  exists panels,
    prepare_panels [sample_file "GA_image" 0 340 340; sample_file "GA_image1" 1 400 680] []
    = Py.Ok panels
    /\ Forall (fun p => height p = PIPELINE_HEIGHT /\ img_mode p = RGBA) panels.
Proof.
  eexists. split; [reflexivity|].
  destruct (prepare_panels_each
              [sample_file "GA_image" 0 340 340; sample_file "GA_image1" 1 400 680]
              _ eq_refl) as (_ & _ & H & _).
  exact H.
Defined.

Lemma prepare_panels_first_failure_witness :
  prepare_panels
    ([sample_file "GA_image" 0 340 340] ++ corrupt_file "GA_image1"
       :: [sample_file "GA_image2" 2 1 1000]) []
  = Py.Raise Py.OSError.
Proof.
  apply (prepare_panels_first_failure [sample_file "GA_image" 0 340 340]).
  - repeat constructor. do 2 eexists. split; reflexivity.
  - reflexivity.
Defined.

(** ** Where things are drawn *)

Section PlacementFacts.
Context {lib : Imaging}.

Lemma row_end_ge (row : list Image) :
  forall x, Forall (fun p => 0 <= width p) row -> x <= row_end x row.
Proof.
  intros x H. destruct row as [|p row]; [cbn; lia|].
  rewrite row_end_width by discriminate.
  pose proof (row_width_nonneg _ H). lia.
Qed.

Lemma row_end_cons2 (x : Z) (p q : Image) (row : list Image) :
  row_end x (p :: q :: row)
  = row_end (x + LETTER_WIDTH + width p + ARROW_WIDTH) (q :: row).
Proof. reflexivity. Qed.

(** Every panel of a row is pasted at the height of the row, right of
    its gutter and left of the end of the row. *)
Lemma pasted_in_row (h : Z) (row : list Image) :
  forall y step x0,
    Forall (fun p => 0 <= width p /\ height p = h) row ->
    Forall (fun t => match t with
                     | (p, x, y') =>
                         x0 + LETTER_WIDTH <= x /\ x + width p <= row_end x0 row
                         /\ y' = y /\ height p = h
                     end)
      (pasted (row_calls y step x0 row)).
Proof.
  induction row as [|p row IH]; intros y step x0 H; [constructor|].
  inversion H as [|? ? [Hp Hh] Hrow]; subst.
  assert (Forall (fun p => 0 <= width p) row) as Hw
    by (eapply Forall_impl; [|exact Hrow]; now intros ? [? _]).
  cbn [row_calls]. rewrite pasted_letter_call.
  change (pasted (Paste ?r ?a ?b :: ?l)) with ((panel_of r, a, b) :: pasted l).
  rewrite panel_of_rgb_of. constructor.
  - split; [lia|]. split; [|auto].
    destruct row as [|q row]; [cbn [row_end]; lia|].
    rewrite row_end_cons2.
    pose proof (row_end_ge (q :: row) (x0 + LETTER_WIDTH + width p + ARROW_WIDTH) Hw).
    unfold ARROW_WIDTH in *. lia.
  - destruct row as [|q row]; [constructor|].
    change (pasted (Arrow ?c ?d ?e ?f :: ?l)) with (pasted l).
    rewrite row_end_cons2.
    eapply Forall_impl; [|apply (IH y (step + 1) _ Hrow)].
    intros [[p' x'] y'] (H1 & H2 & H3 & H4).
    unfold ARROW_WIDTH, LETTER_WIDTH in *. repeat split; auto; lia.
Qed.

(** Every arrow of a row is level at the row's mid-height and spans
    [ARROW_WIDTH] pixels between the two ends of the row. *)
Lemma arrows_in_row (row : list Image) :
  forall y step x0,
    Forall (fun p => 0 <= width p) row ->
    Forall (fun a => match a with
                     | (x1, y1, x2, y2) =>
                         x0 <= x1 /\ x2 = x1 + ARROW_WIDTH /\ x2 <= row_end x0 row
                         /\ y1 = y + PIPELINE_HEIGHT / 2 /\ y2 = y1
                     end)
      (arrows (row_calls y step x0 row)).
Proof.
  induction row as [|p row IH]; intros y step x0 H; [constructor|].
  inversion H as [|? ? Hp Hrow]; subst.
  cbn [row_calls]. rewrite arrows_letter_call.
  change (arrows (Paste ?r ?a ?b :: ?l)) with (arrows l).
  destruct row as [|q row]; [constructor|].
  change (arrows (Arrow ?c ?d ?e ?f :: ?l)) with ((c, d, e, f) :: arrows l).
  rewrite row_end_cons2.
  pose proof (row_end_ge (q :: row) (x0 + LETTER_WIDTH + width p + ARROW_WIDTH) Hrow).
  constructor.
  - unfold LETTER_WIDTH, ARROW_WIDTH in *. repeat split; lia.
  - eapply Forall_impl; [|apply (IH y (step + 1) _ Hrow)].
    intros [[[x1 y1] x2] y2] (H1 & H2 & H3 & H4 & H5).
    unfold ARROW_WIDTH, LETTER_WIDTH in *. repeat split; auto; lia.
Qed.

Lemma Forall_rows (P : Image -> Prop) (panels : list Image) :
  Forall P panels -> Forall P (row1_of panels) /\ Forall P (row2_of panels).
Proof. intros H. rewrite <- (rows_app panels) in H. now apply Forall_app in H. Qed.

(** X11: every panel and every arrow is drawn on the canvas, clear of
    the padding on all four sides, for panels of the pipeline height
    and of no negative width. *)
Theorem compose_inside_padding (panels : list Image) :
  panels <> [] ->
  Forall (fun p => 0 <= width p /\ height p = PIPELINE_HEIGHT) panels ->
  exists cv,
    compose panels = Py.Ok cv
    /\ Forall (fun t => match t with
                        | (p, x, y) => inside_padding cv x y (width p) (height p)
                        end)
         (pasted (calls cv))
    /\ Forall (fun a => match a with
                        | (x1, y1, x2, y2) =>
                            inside_padding cv x1 y1 (x2 - x1) 0 /\ x1 <= x2 /\ y2 = y1
                        end)
         (arrows (calls cv)).
Proof.
  intros Hp Hall. eexists. split; [apply (compose_calls panels Hp)|].
  cbn [calls]. rewrite pasted_app, arrows_app.
  destruct (Forall_rows _ _ Hall) as [H1 H2].
  assert (Forall (fun p => 0 <= width p) panels) as Hw
    by (eapply Forall_impl; [|exact Hall]; now intros ? [? _]).
  destruct (Forall_rows _ _ Hw) as [Hw1 Hw2].
  pose proof (row_width_nonneg _ Hw1) as N1.
  pose proof (row_end_width (row1_of panels) PADDING (row1_nonempty panels Hp)) as E1.
  unfold inside_padding, row1_calls, row2_calls. cbn [canvas_width canvas_height].
  set (w1 := row_width (row1_of panels)) in *.
  set (w2 := row_width (row2_of panels)) in *.
  assert (row2_of panels <> [] ->
          PADDING <= row2_start_x w1 w2
          /\ row_end (row2_start_x w1 w2) (row2_of panels) <= PADDING + Z.max w1 w2) as B2.
  { intros H. rewrite row_end_width by exact H. fold w2. unfold row2_start_x.
    split; [lia|]. destruct (Z_le_gt_dec w2 w1) as [L|L].
    - assert (0 <= (w1 - w2) / 2) by (apply Z.div_pos; lia).
      assert ((w1 - w2) / 2 <= w1 - w2) by (apply Z.div_le_upper_bound; lia). lia.
    - assert ((w1 - w2) / 2 <= 0) by (apply Z.div_le_upper_bound; lia). lia. }
  split; apply Forall_app; split.
  - eapply Forall_impl; [|apply (pasted_in_row PIPELINE_HEIGHT _ row1_y 1 PADDING H1)].
    intros [[p x] y] (A & B & -> & ->). unfold row1_y.
    destruct (is_empty (row2_of panels));
      unfold LETTER_WIDTH, PIPELINE_HEIGHT, ROW_GAP, PADDING in *; lia.
  - destruct (row2_of panels) as [|q row2] eqn:E2; [constructor|].
    destruct B2 as [B2 B3]; [discriminate|]. cbn [is_empty].
    eapply Forall_impl; [|apply (pasted_in_row PIPELINE_HEIGHT _ row2_y _ _ H2)].
    intros [[p x] y] (A & B & -> & ->). unfold row2_y.
    unfold LETTER_WIDTH, PIPELINE_HEIGHT, ROW_GAP, PADDING in *. lia.
  - eapply Forall_impl; [|apply (arrows_in_row _ row1_y 1 PADDING Hw1)].
    intros [[[x1 y1] x2] y2] (A & B & C & -> & ->). unfold row1_y.
    change (PIPELINE_HEIGHT / 2) with 170.
    destruct (is_empty (row2_of panels));
      unfold ARROW_WIDTH, PIPELINE_HEIGHT, ROW_GAP, PADDING in *; lia.
  - destruct (row2_of panels) as [|q row2] eqn:E2; [constructor|].
    destruct B2 as [B2 B3]; [discriminate|]. cbn [is_empty].
    eapply Forall_impl; [|apply (arrows_in_row _ row2_y _ _ Hw2)].
    intros [[[x1 y1] x2] y2] (A & B & C & -> & ->). unfold row2_y.
    change (PIPELINE_HEIGHT / 2) with 170.
    unfold ARROW_WIDTH, PIPELINE_HEIGHT, ROW_GAP, PADDING in *. lia.
Qed.
End PlacementFacts.

Lemma compose_inside_padding_witness :
  exists cv,
    compose (sample_panels [200; 300; 100; 150]) = Py.Ok cv
    /\ Forall (fun t => match t with
                        | (p, x, y) => inside_padding cv x y (width p) (height p)
                        end)
         (pasted (calls cv)).
Proof.
  destruct (compose_inside_padding (sample_panels [200; 300; 100; 150]))
    as (cv & E & H & _).
  - discriminate.
  - repeat constructor; simpl; lia.
  - exists cv. split; [exact E|exact H].
Defined.

(** ** More on rows *)

Section RowResults.
Context {lib : Imaging}.

Lemma sum_widths_app (a b : list Image) :
  fold_right Z.add 0 (map (fun p => LETTER_WIDTH + width p) (a ++ b))
  = fold_right Z.add 0 (map (fun p => LETTER_WIDTH + width p) a)
    + fold_right Z.add 0 (map (fun p => LETTER_WIDTH + width p) b).
Proof.
  induction a as [|p a IH]; cbn [app map fold_right]; [lia|]. rewrite IH. lia.
Qed.

(** X12: two rows put end to end take the width of both and one
    arrow gap more. *)
Theorem row_width_app (a b : list Image) :
  a <> [] -> b <> [] ->
  row_width (a ++ b) = row_width a + row_width b + ARROW_WIDTH.
Proof.
  intros Ha Hb. unfold row_width. rewrite sum_widths_app.
  unfold len. rewrite length_app.
  destruct a as [|p a]; [contradiction|]. destruct b as [|q b]; [contradiction|].
  cbn [List.length]. unfold ARROW_WIDTH. lia.
Qed.

Lemma last_cons2 (p q d : Image) (row : list Image) :
  last (p :: q :: row) d = last (q :: row) d.
Proof. reflexivity. Qed.

(** What the loop of [draw_row] leaves in [last_cx]: the middle of
    the last panel drawn. *)
Lemma draw_row_loop_last (rest : list Image) :
  forall (n start_y step_start i x last_cx : Z) (cv : canvas) (d : Image),
    rest <> [] -> n = i + len rest -> 1 <= step_start + i ->
    exists cv',
      draw_row_loop n start_y (start_y + PIPELINE_HEIGHT / 2) step_start
        i rest x last_cx cv
      = Py.Ok (row_end x rest,
               row_end x rest - width (last rest d) + width (last rest d) / 2, cv').
Proof.
  induction rest as [|p rest IH];
    intros n start_y step_start i x last_cx cv d Hne Hn Hs; [contradiction|].
  cbn [draw_row_loop]. rewrite (draw_section_letter_ok _ _ _ _ Hs).
  cbn [Py.bind]. rewrite len_cons in Hn.
  destruct rest as [|q rest].
  - assert ((i <? n - 1) = false) as ->
      by (apply Z.ltb_ge; unfold len in Hn; simpl in Hn; lia).
    eexists. cbn [draw_row_loop row_end last].
    replace (x + LETTER_WIDTH + width p - width p + width p / 2)
      with (x + LETTER_WIDTH + width p / 2) by lia.
    replace (x + (LETTER_WIDTH + width p)) with (x + LETTER_WIDTH + width p) by lia.
    reflexivity.
  - assert ((i <? n - 1) = true) as ->
      by (apply Z.ltb_lt; pose proof (len_nonneg rest);
          rewrite len_cons in Hn; lia).
    edestruct (IH n start_y step_start (i + 1)) as [cv' E];
      [discriminate|rewrite len_cons in *; lia|lia|rewrite E].
    exists cv'. rewrite row_end_cons2, last_cons2.
    replace (x + (LETTER_WIDTH + width p) + ARROW_WIDTH)
      with (x + LETTER_WIDTH + width p + ARROW_WIDTH) by lia.
    reflexivity.
Qed.

(** X13: [draw_row] returns the middle of the first panel and the
    middle of the last one, whose right edge is the width of the row
    away from the start of the row. *)
Theorem draw_row_centres (cv : canvas) (row : list Image) (start_y step start_x : Z)
  (d : Image) :
  row <> [] -> 1 <= step ->
  exists cv',
    draw_row cv row start_y step start_x
    = Py.Ok (start_x + LETTER_WIDTH + width (hd d row) / 2,
             start_x + row_width row - width (last row d) + width (last row d) / 2,
             cv').
Proof.
  intros Hr Hs. unfold draw_row. destruct row as [|p0 row]; [contradiction|].
  edestruct (draw_row_loop_last (p0 :: row) (len (p0 :: row)) start_y step 0)
    as [cv' E]; [discriminate|lia|lia|rewrite E].
  cbn [Py.bind hd]. exists cv'. rewrite row_end_width by discriminate. reflexivity.
Qed.
End RowResults.

Lemma row_width_app_witness :
  row_width (sample_panels [200; 300] ++ sample_panels [100])
  = row_width (sample_panels [200; 300]) + row_width (sample_panels [100]) + ARROW_WIDTH.
Proof.
  apply (row_width_app (sample_panels [200; 300]) (sample_panels [100])); discriminate.
Defined.

Lemma draw_row_centres_witness :
  exists cv',
    draw_row {| canvas_width := 698; canvas_height := 364; calls := [] |}
      (sample_panels [200; 300; 100]) 12 1 12
    = Py.Ok (130, 636, cv').
Proof.
  destruct (draw_row_centres {| canvas_width := 698; canvas_height := 364; calls := [] |}
              (sample_panels [200; 300; 100]) 12 1 12 (sample_image 0 0 0))
    as [cv' E]; [discriminate|lia|].
  exists cv'. exact E.
Defined.

(** ** More on the outcomes of a run *)

Section RunFacts.
Context {lib : Imaging}.

(** What stands behind a saved file: the panels of the discovered
    files and the canvas composed of them. *)
Lemma main_saved_inv (w : world) (png : png_file) :
  In png (saved (main w)) ->
  assets_exists w = true
  /\ exists panels,
      prepare_panels (discover_images (globbed w)) [] = Py.Ok panels
      /\ panels <> []
      /\ List.length panels = List.length (globbed w)
      /\ compose panels = Py.Ok (png_of png)
      /\ png = upscale (png_of png) 2
      /\ saved (main w) = [png]
      /\ returned (main w) = Py.Ok 0
      /\ console (main w) = [PipelineImageSaved].
Proof.
  unfold main. destruct (assets_exists w); cbn [negb]; [|contradiction].
  rewrite is_empty_discover.
  destruct (globbed w) as [|f paths] eqn:Eg; cbn [is_empty]; [contradiction|].
  rewrite <- Eg.
  destruct (prepare_panels (discover_images (globbed w)) []) as [ps|e] eqn:E;
    cbn [Py.bind]; [|contradiction].
  assert (List.length ps = List.length (globbed w)) as L.
  { rewrite <- (Forall2_length (prepare_panels_Forall2 _ _ E)).
    apply Permutation_length, discover_images_perm. }
  assert (ps <> []) as Hp.
  { intros ->. rewrite Eg in L. discriminate L. }
  rewrite (compose_calls ps Hp). cbn [saved returned console].
  intros [<-|[]]. split; [reflexivity|]. exists ps.
  cbn [upscale png_of]. repeat split; auto. apply (compose_calls ps Hp).
Qed.

Lemma row_calls_alpha (row : list Image) :
  forall y step x,
    Forall (fun p => img_mode p = RGBA) row ->
    Forall (fun c => forall p a b, c <> Paste (ConvertRGB p) a b)
      (row_calls y step x row).
Proof.
  induction row as [|p row IH]; intros y step x H; [constructor|].
  inversion H as [|? ? Hp Hrow]; subst. cbn [row_calls].
  constructor.
  { unfold letter_call. destruct (textbbox _) as [[[b0 b1] b2] b3]. discriminate. }
  constructor.
  { unfold rgb_of. rewrite Hp. discriminate. }
  destruct row as [|q row]; [constructor|].
  constructor; [discriminate|]. now apply IH.
Qed.

(** X14: in the file [main] saves, every panel was pasted through its
    alpha band onto white; the branch that converts a panel without
    alpha is never taken. *)
Theorem main_pastes_through_alpha (w : world) (png : png_file) :
  In png (saved (main w)) ->
  Forall (fun c => forall p a b, c <> Paste (ConvertRGB p) a b) (calls (png_of png)).
Proof.
  intros H. destruct (main_saved_inv w png H) as (_ & ps & E & Hp & _ & Ec & _).
  rewrite (compose_calls ps Hp) in Ec. apply ok_inj in Ec. rewrite <- Ec. cbn [calls].
  pose proof (prepared_panels_uniform _ _ (prepare_panels_Forall2 _ _ E)) as Hu.
  assert (Forall (fun p => img_mode p = RGBA) ps) as Hm
    by (eapply Forall_impl; [|exact Hu]; now intros ? [_ ?]).
  destruct (Forall_rows _ _ Hm) as [H1 H2].
  apply Forall_app. split; unfold row1_calls, row2_calls; now apply row_calls_alpha.
Qed.

Lemma row2_empty_iff (panels : list Image) :
  is_empty (row2_of panels) = (List.length panels <=? 3)%nat.
Proof.
  destruct (rows_split panels) as [_ ->].
  destruct panels as [|a [|b [|c [|d l]]]]; reflexivity.
Qed.

(** X15: the file saved is twice the canvas in both directions; it is
    728 pixels high when up to three files matched and 1448 pixels high
    when more did, and at least 86 pixels wide when the decoded images
    are at least one pixel wide. *)
Theorem main_output_size (w : world) (png : png_file) :
  In png (saved (main w)) ->
  png_width png = 2 * canvas_width (png_of png)
  /\ png_height png = 2 * canvas_height (png_of png)
  /\ png_height png = (if (List.length (globbed w) <=? 3)%nat then 728 else 1448)
  /\ (Forall (fun f => forall a b px, decoded f = Some (a, b, px) -> 1 <= a) (globbed w) ->
      2 * (LETTER_WIDTH + 1 + 2 * PADDING) <= png_width png).
Proof.
  intros H. destruct (main_saved_inv w png H) as (_ & ps & E & Hp & L & Ec & Eu & _).
  rewrite Eu. cbn [png_width png_height png_of upscale].
  split; [lia|]. split; [lia|].
  rewrite (compose_calls ps Hp) in Ec. apply ok_inj in Ec. rewrite <- Ec.
  cbn [canvas_width canvas_height]. rewrite row2_empty_iff, L. split.
  - destruct (List.length (globbed w) <=? 3)%nat; reflexivity.
  - intros Hw.
    assert (Forall (fun p => 1 <= width p) ps) as Hps.
    { apply (prepared_panels_wide _ _ (prepare_panels_Forall2 _ _ E)).
      eapply Permutation_Forall; [|exact Hw].
      apply Permutation_sym, discover_images_perm. }
    destruct (Forall_rows _ _ Hps) as [H1 _].
    pose proof (row1_nonempty ps Hp) as Hr.
    destruct (row1_of ps) as [|p row] eqn:Er; [contradiction|].
    inversion H1 as [|? ? Hp1 Hrow]; subst.
    assert (0 <= row_width row).
    { apply row_width_nonneg. eapply Forall_impl; [|exact Hrow].
      intros q Hq. cbv beta in *. lia. }
    assert (LETTER_WIDTH + width p <= row_width (p :: row)).
    { unfold row_width in *. cbn [map fold_right]. rewrite len_cons.
      pose proof (len_nonneg row). unfold ARROW_WIDTH in *.
      assert (0 <= fold_right Z.add 0 (map (fun p0 => LETTER_WIDTH + width p0) row)).
      { clear - Hrow. induction Hrow as [|q row Hq _ IH]; cbn [map fold_right];
          unfold LETTER_WIDTH in *; lia. }
      lia. }
    unfold LETTER_WIDTH, PADDING in *. lia.
Qed.

(** X16: what [main] prints tells the outcomes apart: one message for
    a missing directory, another for a directory without a matching
    file, a third after the file is saved, and nothing when an error
    leaves [main]. *)
Theorem main_console (w : world) :
  (console (main w) = [AssetsDirectoryNotFound] <-> assets_exists w = false)
  /\ (console (main w) = [NoImagesFound]
      <-> assets_exists w = true /\ globbed w = [])
  /\ (console (main w) = [PipelineImageSaved] <-> returned (main w) = Py.Ok 0)
  /\ (console (main w) = [] <-> exists e, returned (main w) = Py.Raise e).
Proof.
  unfold main. destruct (assets_exists w); cbn [negb].
  2:{ cbn [console returned]. repeat split; try discriminate; auto.
      - intros [H _]. discriminate H.
      - intros [e H]. discriminate H. }
  rewrite is_empty_discover.
  destruct (globbed w) as [|f paths] eqn:Eg; cbn [is_empty].
  { cbn [console returned]. repeat split; try discriminate; auto.
    intros [e H]. discriminate H. }
  rewrite <- Eg.
  destruct (prepare_panels (discover_images (globbed w)) []) as [ps|e] eqn:E;
    cbn [Py.bind].
  - assert (ps <> []) as Hp.
    { intros ->. pose proof (Forall2_length (prepare_panels_Forall2 _ _ E)) as L.
      apply length_zero_iff_nil in L.
      apply (proj1 (discover_images_nil _)) in L. rewrite Eg in L. discriminate L. }
    rewrite (compose_calls ps Hp). cbn [console returned].
    repeat split; try discriminate; auto.
    + intros [_ H]. rewrite Eg in H. discriminate H.
    + intros [e H]. discriminate H.
  - cbn [console returned]. repeat split; try discriminate; auto.
    + intros [_ H]. rewrite Eg in H. discriminate H.
    + intros _. now exists e.
Qed.
End RunFacts.

Lemma main_pastes_through_alpha_witness :
  let w := {| assets_exists := true;
              globbed := [sample_file "GA_image1" 1 400 680;
                          sample_file "GA_image" 2 340 340] |} in
  exists png,
    saved (main w) = [png]
    /\ Forall (fun c => forall p a b, c <> Paste (ConvertRGB p) a b) (calls (png_of png)).
Proof.
  intros w. eexists. split; [reflexivity|].
  apply (main_pastes_through_alpha w). left. reflexivity.
Defined.

Lemma main_output_size_witness :
  let w := {| assets_exists := true;
              globbed := [sample_file "GA_image1" 1 400 680;
                          sample_file "GA_image" 2 340 340] |} in
  exists png, saved (main w) = [png] /\ png_height png = 728.
Proof.
  intros w. eexists. split; [reflexivity|].
  match goal with
  | |- png_height ?p = _ =>
      destruct (main_output_size w p (or_introl eq_refl)) as (_ & _ & H & _); exact H
  end.
Defined.
